(** * A shallow embedding of the cisa ISA/GSM core

    Sources: [code/isa/include/isa.h], [code/isa/src/distribution.cpp],
    [code/isa/src/gsminterface.cpp].  Integers ([int]) are [Z]; the
    IEEE doubles of [Distribution::evaluate] and of the default
    [Parameters] are Rocq's primitive binary64 floats.  The GSM density
    and the ISA algorithms whose bodies (gsm.cpp, isa.cpp) are not part of
    the sources are modelled from the spec, over the real numbers. *)

From Stdlib Require Import ZArith String List Floats Reals Lra Lia.
Import ListNotations.

Set Warnings "-inexact-float".

Open Scope Z_scope.

(* ------------------------------------------------------------------ *)
(** ** Dense matrices *)

(** An Eigen [MatrixXd] (column-major) as the list of its columns: rows
    are dimensions, columns are samples.  Real entries idealise the
    doubles. *)
Definition MatrixXd := list (list R).

(** [m.middleRows(from, n)] *)
Definition middleRows (m : MatrixXd) (from n : nat) : MatrixXd :=
  map (fun c => firstn n (skipn from c)) m.

Fixpoint zipWith {A B C} (f : A -> B -> C) (l1 : list A) (l2 : list B) : list C :=
  match l1, l2 with
  | a :: l1', b :: l2' => f a b :: zipWith f l1' l2'
  | _, _ => []
  end.

(** Stacking row blocks of [n] columns each on top of each other. *)
Definition vconcat (n : nat) (blocks : list MatrixXd) : MatrixXd :=
  fold_right (zipWith (@app R)) (repeat [] n) blocks.

(* ------------------------------------------------------------------ *)
(** ** Results of fallible operations *)

(** Every failure of the core is one [Exception] carrying a message. *)
Inductive Result (A : Type) : Type :=
| Ok (a : A)
| Err (msg : string).
Arguments Ok {A} a.
Arguments Err {A} msg.

(** What a member function hands back to its caller. *)
Inductive Returned : Type :=
| Void
| Bool (b : bool).

Module Utils.

Local Open Scope R_scope.

(** [sum] of a list of reals. *)
Definition rsum (l : list R) : R := fold_right Rplus 0 l.

(** [x.squaredNorm()] of one sample (one column). *)
Definition sqnorm (x : list R) : R := rsum (map (fun a => a * a) x).

(** Numerics utilities (utils.h): the stable [logsumexp] reduction of one
    column: [max + log(sum(exp(a - max)))]. *)
Definition logsumexp (l : list R) : R :=
  let m := fold_right Rmax (hd 0 l) l in
  m + ln (rsum (map (fun a => exp (a - m)) l)).

End Utils.

(* ------------------------------------------------------------------ *)
(** ** GSM, modelled from the spec

    Modelled from the spec: gsm.cpp is not among the sources; only the
    Python wrappers of gsminterface.cpp are.  Data matrices are lists of
    columns (Eigen's [MatrixXd] is column-major): one list of [dim]
    reals per sample.  A GSM scale is a pair (variance, weight). *)
Module GSMModel.

Import Utils.
Local Open Scope R_scope.

Record GSM := mkGSM {
  dim : nat;
  params : list (R * R)   (* per scale index: (variance, weight) *)
}.

Definition numScales (g : GSM) : nat := length (params g).
Definition scales (g : GSM) : list R := map fst (params g).
Definition priors (g : GSM) : list R := map snd (params g).

(** ShapeMismatch: every sample must have [dim] entries. *)
Definition shape_ok (g : GSM) (data : MatrixXd) : bool :=
  forallb (fun x => Nat.eqb (length x) (dim g)) data.

Definition shape_error : string := "Data has wrong dimensionality.".

(** [variance()]: the weighted average of the per-scale variances;
    DegenerateParameters when the weights sum to zero or every variance
    is zero. *)
Definition variance (g : GSM) : Result R :=
  let tw := rsum (priors g) in
  let wv := rsum (map (fun p => snd p * fst p) (params g)) in
  if Req_dec_T tw 0 then Err "Mixture weights sum to zero."
  else if forallb (fun v => if Req_dec_T v 0 then true else false) (scales g)
  then Err "All variances are zero."
  else Ok (wv / tw).

(** [normalize()]: divides every variance by [variance()]; weights are
    left as they are. *)
Definition normalize (g : GSM) : Result GSM :=
  match variance g with
  | Err msg => Err msg
  | Ok v => Ok {| dim := dim g;
                  params := map (fun p => (fst p / v, snd p)) (params g) |}
  end.

(** Log of the weighted Gaussian density of a sample with squared norm [s]
    under scale [p = (variance, weight)] in [d] dimensions; used only for
    the scales of [active] below, whose weight is positive. *)
Definition logJoint (d : nat) (p : R * R) (s : R) : R :=
  ln (snd p) - INR d / 2 * ln (2 * PI * fst p) - s / (2 * fst p).

Definition pos_weight (p : R * R) : bool :=
  if Rlt_dec 0 (snd p) then true else false.

Definition has_weight (g : GSM) : bool := existsb pos_weight (params g).

(** The scales that contribute to the density.  A scale of weight 0 has
    log-weight [log 0 = -inf]: its term [exp(-inf - max)] of the
    log-sum-exp is 0 and so is its responsibility, so it is left out.
    When no weight is positive the log-sum-exp is undefined
    (DegenerateParameters, which [train] refuses); every scale is then
    kept, which weights the scales equally. *)
Definition active (g : GSM) (p : R * R) : bool :=
  if has_weight g then pos_weight p else true.

Definition logJoints (g : GSM) (s : R) : list R :=
  map (fun p => logJoint (dim g) p s) (filter (active g) (params g)).

(** Responsibility of scale [p] for a sample with squared norm [s]:
    the log-joint normalised with [logsumexp], then exponentiated; 0 for
    a scale of weight 0. *)
Definition resp (g : GSM) (s : R) (p : R * R) : R :=
  if active g p then exp (logJoint (dim g) p s - logsumexp (logJoints g s)) else 0.


(** Per-sample log-likelihood, and the total over the samples (given by
    their squared norms). *)
Definition logLikelihoodSample (g : GSM) (s : R) : R := logsumexp (logJoints g s).

Definition totalLogLikelihood (g : GSM) (ss : list R) : R :=
  rsum (map (logLikelihoodSample g) ss).

(** [energyGradient(data)]: the derivative of
    [-log sum_k w_k N(x; 0, v_k I)] in [x], i.e. [x * sum_k r_k / v_k]. *)
Definition energyGradient (g : GSM) (data : MatrixXd) : MatrixXd :=
  map (fun x =>
         let c := rsum (map (fun p => resp g (sqnorm x) p / fst p) (params g)) in
         map (fun a => c * a) x) data.

(** One EM iteration.  E-step: responsibilities.  M-step: the new weight
    is the average responsibility, the new variance the
    responsibility-weighted second moment per dimension; a variance that
    would collapse to zero keeps its old value. *)
Definition mstep (g : GSM) (ss : list R) (p : R * R) : R * R :=
  let Rk := rsum (map (fun s => resp g s p) ss) in
  let Sk := rsum (map (fun s => resp g s p * s) ss) in
  let v := Sk / (INR (dim g) * Rk) in
  ((if Rlt_dec 0 v then v else fst p), Rk / INR (length ss)).

Definition em_step (g : GSM) (ss : list R) : GSM :=
  {| dim := dim g; params := map (mstep g ss) (params g) |}.

(** The iterations of [train]: stop with [true] as soon as one iteration
    improves the log-likelihood by less than [tol], with [false] after
    [n] iterations. *)
Fixpoint train_iter (n : nat) (g : GSM) (ss : list R) (tol : R) : GSM * bool :=
  match n with
  | O => (g, false)
  | S n' =>
      let g' := em_step g ss in
      if Rlt_dec (totalLogLikelihood g' ss - totalLogLikelihood g ss) tol
      then (g', true)
      else train_iter n' g' ss tol
  end.

(** DegenerateParameters: the weights sum to zero, or every variance is
    zero. *)
Definition degenerate (g : GSM) : option string :=
  if Req_dec_T (rsum (priors g)) 0 then Some "Mixture weights sum to zero."%string
  else if forallb (fun v => if Req_dec_T v 0 then true else false) (scales g)
  then Some "All variances are zero."%string
  else None.

(** [bool GSM::train(data, maxIter, tol)]: fails fast on a ShapeMismatch or
    on DegenerateParameters, otherwise runs the EM iterations. *)
Definition train (g : GSM) (data : MatrixXd) (maxIter : Z) (tol : R)
  : Result (GSM * bool) :=
  if shape_ok g data then
    match degenerate g with
    | Some msg => Err msg
    | None => Ok (train_iter (Z.to_nat maxIter) g (map sqnorm data) tol)
    end
  else Err shape_error.

End GSMModel.

(* ------------------------------------------------------------------ *)
(** ** The ISA class (isa.h) *)

Record ISA := mkISA {
  mNumVisibles : Z;
  mNumHiddens : Z;
  mBasis : MatrixXd;
  mSubspaces : list GSMModel.GSM
}.

(** [inline int ISA::numVisibles() { return mNumVisibles; }] *)
Definition numVisibles (m : ISA) : Z := mNumVisibles m.

(** [inline int ISA::numHiddens() { return mNumVisibles; }] *)
Definition numHiddens (m : ISA) : Z := mNumVisibles m.

(** [inline bool ISA::complete() { return mNumVisibles == mNumHiddens; }] *)
Definition complete (m : ISA) : bool := Z.eqb (mNumVisibles m) (mNumHiddens m).

(** [inline int ISA::numSubspaces() { return mSubspaces.size(); }] *)
Definition numSubspaces (m : ISA) : Z := Z.of_nat (length (mSubspaces m)).

(** [inline MatrixXd ISA::basis() { return mBasis; }] *)
Definition basis (m : ISA) : MatrixXd := mBasis m.

(** [inline void ISA::setBasis(const MatrixXd& basis) { mBasis = basis; }]
    Eigen's assignment to a dynamic-size matrix resizes it, so any shape is
    accepted; the mutation is written as state passing. *)
Definition setBasis (m : ISA) (b : MatrixXd) : ISA :=
  {| mNumVisibles := mNumVisibles m;
     mNumHiddens := mNumHiddens m;
     mBasis := b;
     mSubspaces := mSubspaces m |}.

(* ------------------------------------------------------------------ *)
(** ** The [Parameters] record of isa.h *)

Module Config.

(** The anonymous [struct] of [Parameters::SGD]. *)
Module SGDConf.
Record t := mk {
  maxIter : Z;
  batchSize : Z;
  stepWidth : float;
  momentum : float;
  shuffle : bool;
  pocket : bool
}.
End SGDConf.

(** The anonymous [struct] of [Parameters::GSM]. *)
Module GSMConf.
Record t := mk {
  maxIter : Z;
  tol : float
}.
End GSMConf.

Record Parameters := mkParameters {
  trainingMethod : string;
  samplingMethod : string;
  maxIter : Z;
  adaptive : bool;
  SGD : SGDConf.t;
  GSM : GSMConf.t
}.

(** The default constructor [Parameters::Parameters()]. *)
Definition Parameters_default : Parameters :=
  {| trainingMethod := "SGD";
     samplingMethod := "Gibbs";
     maxIter := 10;
     adaptive := true;
     SGD := {| SGDConf.maxIter := 1;
               SGDConf.batchSize := 100;
               SGDConf.stepWidth := 0.001%float;
               SGDConf.momentum := 0.8%float;
               SGDConf.shuffle := true;
               SGDConf.pocket := true |};
     GSM := {| GSMConf.maxIter := 100;
               GSMConf.tol := 1e-8%float |} |}.

End Config.

(* ------------------------------------------------------------------ *)
(** ** The [Distribution] interface and [Distribution::evaluate] *)

Module Density.

(** A dense double matrix, as list of rows. *)
Definition MatrixXf := list (list float).

(** The pure virtual members of [Distribution]: [dim()] and
    [logLikelihood(data)] (one value per sample). *)
Class Distribution (T : Type) := {
  dim : T -> Z;
  logLikelihood : T -> MatrixXf -> list float
}.

(** [int] to [double] conversion (exact for 32-bit integers). *)
Definition int_to_double (z : Z) : float :=
  if (z <? 0)%Z
  then PrimFloat.opp (PrimFloat.of_uint63 (Uint63.of_Z (- z)))
  else PrimFloat.of_uint63 (Uint63.of_Z z).

Section Evaluate.

(** Eigen's [ArrayBase::mean()] and the C library's [log]. *)
Variable mean : list float -> float.
Variable log : float -> float.

(** [return -logLikelihood(data).mean() / log(2.) / dim();]  The
    operators associate to the left; unary minus applies to the mean. *)
Definition evaluate {T} `{Distribution T} (d : T) (data : MatrixXf) : float :=
  PrimFloat.div
    (PrimFloat.div (PrimFloat.opp (mean (logLikelihood d data))) (log 2%float))
    (int_to_double (dim d)).

(** The spec's formula, [-mean(logLikelihood(data)) / log(2) / dimensionality],
    written out separately: the mean of the log-likelihoods, negated,
    divided by the natural log of 2, then by the dimensionality. *)
Definition evaluate_spec {T} `{Distribution T} (d : T) (data : MatrixXf) : float :=
  let ll := logLikelihood d data in
  let m := mean ll in
  let bits := PrimFloat.div (PrimFloat.opp m) (log 2%float) in
  PrimFloat.div bits (int_to_double (dim d)).

End Evaluate.

End Density.


(* ------------------------------------------------------------------ *)
(** ** ISA algorithms, modelled from the spec *)

(** Modelled from the spec: [ISA::priorEnergyGradient] (isa.cpp is not
    among the sources).  The rows of subspace [i] start after the rows of
    the subspaces before it; each block of the result is that subspace's
    GSM [energyGradient] on the same rows of [states]. *)
Fixpoint priorEnergyGradient_from (subs : list GSMModel.GSM) (from : nat)
  (states : MatrixXd) : MatrixXd :=
  match subs with
  | [] => map (fun _ => []) states
  | g :: gs =>
      zipWith (@app R)
        (GSMModel.energyGradient g (middleRows states from (GSMModel.dim g)))
        (priorEnergyGradient_from gs (from + GSMModel.dim g) states)
  end.

Definition priorEnergyGradient (m : ISA) (states : MatrixXd) : MatrixXd :=
  priorEnergyGradient_from (mSubspaces m) 0 states.

Module ISATraining.

Section Train.

(** One outer iteration of [ISA::train]: hidden states drawn by posterior
    sampling, [trainSGD] on the basis, and [trainPrior] when
    [params.adaptive] is set.  It draws random samples, so it is a
    parameter of the model. *)
Variable outer_iteration : ISA -> MatrixXd -> Config.Parameters -> ISA.

(** Modelled from the spec: [void ISA::train(data, params)] (isa.cpp is
    not among the sources) fails fast with a ShapeMismatch when a sample
    (a column of [data]) does not have [numVisibles()] rows; otherwise it
    runs [params.maxIter] outer iterations and returns nothing.  The
    validation of [params] (ConfigurationInvalid) is not modelled. *)
Definition train (m : ISA) (data : MatrixXd) (params : Config.Parameters)
  : Result (ISA * Returned) :=
  if forallb (fun x => Z.eqb (Z.of_nat (length x)) (mNumVisibles m)) data
  then Ok (Nat.iter (Z.to_nat (Config.maxIter params))
                    (fun m' => outer_iteration m' data params) m, Void)
  else Err "Data has wrong dimensionality.".

End Train.

End ISATraining.

(* ------------------------------------------------------------------ *)
(** ** The Python wrapper [GSM_train] (gsminterface.cpp) *)

Module GSMInterface.

(** The object handed back to Python: [Py_True], [Py_False], [Py_None],
    or [0] with a Python error of the given type and message set. *)
Inductive PyObject : Type :=
| Py_True
| Py_False
| Py_None
| NULL (exc : string) (msg : string).

(** [GSM_train(self, data, max_iter = 100, tol = 1e-5)]; [data] is [None]
    when the argument is not a NumPy array.  The GSM's state is threaded
    through. *)
Definition GSM_train (self : GSMModel.GSM) (data : option MatrixXd)
  (max_iter : Z) (tol : R) : GSMModel.GSM * PyObject :=
  match data with
  | None => (self, NULL "TypeError" "Data has to be stored in a NumPy array.")
  | Some d =>
      match GSMModel.train self d max_iter tol with
      | Ok (g, true) => (g, Py_True)
      | Ok (g, false) => (g, Py_False)
      | Err msg => (self, NULL "RuntimeError" msg)
      end
  end.

End GSMInterface.

(* ------------------------------------------------------------------ *)
(** ** The Python type [GSM] (gsminterface.cpp) over any C++ [GSM]

    The bodies of the C++ class [GSM] (gsm.h, gsm.cpp) are not among the
    sources, so the wrappers are embedded over a record of the members they
    call.  Argument parsing ([PyArg_ParseTupleAndKeywords]) is taken as
    succeeded; an optional argument the caller leaves out is [None]. *)

Module PyGSM.

(** The Python exception types the wrappers set. *)
Inductive PyExc : Type :=
| PyExc_TypeError
| PyExc_RuntimeError.

(** The Python objects the wrappers read and build.  [PyArray m] is a NumPy
    array holding the matrix [m] ([PyArray_ToMatrixXd] and
    [PyArray_FromMatrixXd] convert between the two); [PyOther] is any other
    object. *)
Inductive PyObject : Type :=
| Py_None
| Py_True
| Py_False
| PyInt (n : Z)
| PyFloat (x : float)
| PyArray (m : MatrixXd)
| PyOther.

(** [PyArray_Check(o)] *)
Definition PyArray_Check (o : PyObject) : bool :=
  match o with
  | PyArray _ => true
  | _ => false
  end.

(** [PyArray_ToMatrixXd(o)], called only on arrays. *)
Definition PyArray_ToMatrixXd (o : PyObject) : MatrixXd :=
  match o with
  | PyArray m => m
  | _ => []
  end.

(** What a method returns: a new reference, or [0] with a Python error of
    the given type and message set. *)
Inductive PyResult : Type :=
| Return (o : PyObject)
| NULL (e : PyExc) (msg : string).

(** What a setter returns: [0], or [-1] with a Python error set. *)
Inductive SetResult : Type :=
| Set_ok
| Set_error (e : PyExc) (msg : string).

(** The members of the C++ class [GSM] the wrappers call.  A member that
    may throw [Exception] returns [Err (exception.message())]; the members
    that change the object ([setScales], [normalize], [train]) return its
    state afterwards, whether they return or throw. *)
Record GSMClass (G : Type) := {
  new_GSM : Z -> Z -> G;
  gsm_dim : G -> Z;
  gsm_numScales : G -> Z;
  gsm_scales : G -> MatrixXd;
  gsm_setScales : G -> MatrixXd -> G * Result unit;
  gsm_variance : G -> Result float;
  gsm_normalize : G -> G * Result unit;
  gsm_train : G -> MatrixXd -> Z -> float -> G * Result bool;
  gsm_posterior : G -> MatrixXd -> Result MatrixXd;
  gsm_sample : G -> Z -> Result MatrixXd;
  gsm_samplePosterior : G -> MatrixXd -> Result MatrixXd;
  gsm_logLikelihood : G -> MatrixXd -> Result MatrixXd;
  gsm_energy : G -> MatrixXd -> Result MatrixXd;
  gsm_energyGradient : G -> MatrixXd -> Result MatrixXd
}.

Arguments new_GSM {G} _ _ _.
Arguments gsm_dim {G} _ _.
Arguments gsm_numScales {G} _ _.
Arguments gsm_scales {G} _ _.
Arguments gsm_setScales {G} _ _ _.
Arguments gsm_variance {G} _ _.
Arguments gsm_normalize {G} _ _.
Arguments gsm_train {G} _ _ _ _ _.
Arguments gsm_posterior {G} _ _ _.
Arguments gsm_sample {G} _ _ _.
Arguments gsm_samplePosterior {G} _ _ _.
Arguments gsm_logLikelihood {G} _ _ _.
Arguments gsm_energy {G} _ _ _.
Arguments gsm_energyGradient {G} _ _ _.

(** An optional argument: its default when left out. *)
Definition kwarg {A} (default : A) (o : option A) : A :=
  match o with
  | Some a => a
  | None => default
  end.

Definition data_type_message : string := "Data has to be stored in a NumPy array.".

Definition scales_type_message : string := "Scales should be of type `ndarray`.".

Section Wrappers.

Variable G : Type.
Variable C : GSMClass G.

(** [GSM_new]: the new object's [gsm] pointer is [0] ([None]). *)
Definition GSM_new : option G := None.

(** [GSM_init(self, dim, num_scales = 10)]: [self->gsm = new GSM(dim,
    num_scales)], whatever [self->gsm] held before; returns [0]. *)
Definition GSM_init (self : option G) (dim : Z) (num_scales : option Z)
  : option G * Z :=
  let num_scales := kwarg 10 num_scales in
  (Some (new_GSM C dim num_scales), 0).

(** The getters [GSM_dim], [GSM_num_scales] and [GSM_scales]. *)
Definition GSM_dim (self : G) : PyObject := PyInt (gsm_dim C self).

Definition GSM_num_scales (self : G) : PyObject := PyInt (gsm_numScales C self).

Definition GSM_scales (self : G) : PyObject := PyArray (gsm_scales C self).

(** [GSM_set_scales(self, value)] *)
Definition GSM_set_scales (self : G) (value : PyObject) : G * SetResult :=
  if negb (PyArray_Check value) then (self, Set_error PyExc_TypeError scales_type_message)
  else
    let '(self', r) := gsm_setScales C self (PyArray_ToMatrixXd value) in
    match r with
    | Ok _ => (self', Set_ok)
    | Err msg => (self', Set_error PyExc_RuntimeError msg)
    end.

(** [GSM_variance(self)] *)
Definition GSM_variance (self : G) : PyResult :=
  match gsm_variance C self with
  | Ok v => Return (PyFloat v)
  | Err msg => NULL PyExc_RuntimeError msg
  end.

(** [GSM_normalize(self)] *)
Definition GSM_normalize (self : G) : G * PyResult :=
  let '(self', r) := gsm_normalize C self in
  match r with
  | Ok _ => (self', Return Py_None)
  | Err msg => (self', NULL PyExc_RuntimeError msg)
  end.

(** [GSM_train(self, data, max_iter = 100, tol = 1e-5)] *)
Definition GSM_train (self : G) (data : PyObject) (max_iter : option Z)
  (tol : option float) : G * PyResult :=
  let max_iter := kwarg 100 max_iter in
  let tol := kwarg 1e-5%float tol in
  if negb (PyArray_Check data) then (self, NULL PyExc_TypeError data_type_message)
  else
    let '(self', r) := gsm_train C self (PyArray_ToMatrixXd data) max_iter tol in
    match r with
    | Ok true => (self', Return Py_True)
    | Ok false => (self', Return Py_False)
    | Err msg => (self', NULL PyExc_RuntimeError msg)
    end.

(** The body shared by [GSM_posterior], [GSM_sample_posterior],
    [GSM_loglikelihood], [GSM_energy] and [GSM_energy_gradient], which
    differ only in the member they call on the data. *)
Definition data_method (member : G -> MatrixXd -> Result MatrixXd)
  (self : G) (data : PyObject) : PyResult :=
  if negb (PyArray_Check data) then NULL PyExc_TypeError data_type_message
  else
    match member self (PyArray_ToMatrixXd data) with
    | Ok m => Return (PyArray m)
    | Err msg => NULL PyExc_RuntimeError msg
    end.

Definition GSM_posterior := data_method (gsm_posterior C).
Definition GSM_sample_posterior := data_method (gsm_samplePosterior C).
Definition GSM_loglikelihood := data_method (gsm_logLikelihood C).
Definition GSM_energy := data_method (gsm_energy C).
Definition GSM_energy_gradient := data_method (gsm_energyGradient C).

(** [GSM_sample(self, num_samples = 1)] *)
Definition GSM_sample (self : G) (num_samples : option Z) : PyResult :=
  let num_samples := kwarg 1 num_samples in
  match gsm_sample C self num_samples with
  | Ok m => Return (PyArray m)
  | Err msg => NULL PyExc_RuntimeError msg
  end.

End Wrappers.

Arguments GSM_new {G}.
Arguments GSM_init {G} C self dim num_scales.
Arguments GSM_dim {G} C self.
Arguments GSM_num_scales {G} C self.
Arguments GSM_scales {G} C self.
Arguments GSM_set_scales {G} C self value.
Arguments GSM_variance {G} C self.
Arguments GSM_normalize {G} C self.
Arguments GSM_train {G} C self data max_iter tol.
Arguments data_method {G} member self data.
Arguments GSM_posterior {G} C.
Arguments GSM_sample_posterior {G} C.
Arguments GSM_loglikelihood {G} C.
Arguments GSM_energy {G} C.
Arguments GSM_energy_gradient {G} C.
Arguments GSM_sample {G} C self num_samples.

End PyGSM.

(* ------------------------------------------------------------------ *)
(** ** Sample inputs *)

(** An overcomplete model: two visible, four hidden units. *)
Definition isa_2_4 : ISA :=
  {| mNumVisibles := 2; mNumHiddens := 4; mBasis := []; mSubspaces := [] |}.


(** A one-dimensional GSM with variances 1 and 4 and equal weights, and
    two samples for it. *)
Definition gsm_1d : GSMModel.GSM :=
  {| GSMModel.dim := 1; GSMModel.params := [(1, / 2); (4, / 2)]%R |}.


(** A one-dimensional GSM whose second scale has weight 0, and one sample
    at the origin. *)
Definition gsm_zero_weight : GSMModel.GSM :=
  {| GSMModel.dim := 1; GSMModel.params := [(1, 1); (100, 0)]%R |}.

Definition data_origin : MatrixXd := [[0]]%R.

(** A model with a one- and a two-dimensional subspace, and hidden states
    of two samples split into the two blocks. *)
Definition isa_two_subspaces : ISA :=
  {| mNumVisibles := 3; mNumHiddens := 3; mBasis := [];
     mSubspaces := [ {| GSMModel.dim := 1; GSMModel.params := [(1, 1)]%R |};
                     {| GSMModel.dim := 2; GSMModel.params := [(1, / 2); (2, / 2)]%R |} ] |}.

Definition states_blocks : list MatrixXd :=
  [ [[1]; [2]]; [[3; 4]; [5; 6]] ]%R.

(** A C++ [GSM] whose fallible members all throw, its state an [int] that
    the mutating members bump before they throw. *)
Definition throwing_gsm : PyGSM.GSMClass Z :=
  {| PyGSM.new_GSM := fun dim _ => dim;
     PyGSM.gsm_dim := fun g => g;
     PyGSM.gsm_numScales := fun _ => 10;
     PyGSM.gsm_scales := fun _ => [];
     PyGSM.gsm_setScales := fun g _ => (g + 1, Err "Wrong number of scales.");
     PyGSM.gsm_variance := fun _ => Err "Variance undefined.";
     PyGSM.gsm_normalize := fun g => (g + 1, Err "Variance undefined.");
     PyGSM.gsm_train := fun g _ _ _ => (g + 1, Err "Data has wrong dimensionality.");
     PyGSM.gsm_posterior := fun _ _ => Err "Data has wrong dimensionality.";
     PyGSM.gsm_sample := fun _ _ => Err "Invalid number of samples.";
     PyGSM.gsm_samplePosterior := fun _ _ => Err "Data has wrong dimensionality.";
     PyGSM.gsm_logLikelihood := fun _ _ => Err "Data has wrong dimensionality.";
     PyGSM.gsm_energy := fun _ _ => Err "Data has wrong dimensionality.";
     PyGSM.gsm_energyGradient := fun _ _ => Err "Data has wrong dimensionality." |}.

(** A C++ [GSM] whose members all return: [train] counts its runs in the
    state and reports convergence, the data members hand the data back. *)
Definition returning_gsm : PyGSM.GSMClass Z :=
  {| PyGSM.new_GSM := fun dim _ => dim;
     PyGSM.gsm_dim := fun g => g;
     PyGSM.gsm_numScales := fun _ => 10;
     PyGSM.gsm_scales := fun _ => [];
     PyGSM.gsm_setScales := fun g _ => (g, Ok tt);
     PyGSM.gsm_variance := fun _ => Ok 1%float;
     PyGSM.gsm_normalize := fun g => (g, Ok tt);
     PyGSM.gsm_train := fun g _ _ _ => (g + 1, Ok true);
     PyGSM.gsm_posterior := fun _ d => Ok d;
     PyGSM.gsm_sample := fun _ n => Ok (repeat [0%R] (Z.to_nat n));
     PyGSM.gsm_samplePosterior := fun _ d => Ok d;
     PyGSM.gsm_logLikelihood := fun _ d => Ok d;
     PyGSM.gsm_energy := fun _ d => Ok d;
     PyGSM.gsm_energyGradient := fun _ d => Ok d |}.

(* ================================================================== *)
(** * Claims about isa.h, distribution.cpp and the default parameters *)

(** C1: [numHiddens()] reads [mNumVisibles]: on a model storing 2 visible
    and 4 hidden units it returns 2, not the stored hidden count 4, so
    [numVisibles() == numHiddens()] holds although [complete()] is false. *)
Theorem numHiddens_returns_visible_count :
  numHiddens isa_2_4 = 2%Z /\ mNumHiddens isa_2_4 = 4%Z /\
  numVisibles isa_2_4 = numHiddens isa_2_4 /\ complete isa_2_4 = false.
Proof. repeat split; reflexivity. Qed.

(** C2: [complete()] is true exactly when the stored counts [mNumVisibles]
    and [mNumHiddens] are equal. *)
Theorem complete_iff_counts_equal (m : ISA) :
  complete m = true <-> mNumVisibles m = mNumHiddens m.
Proof. unfold complete. apply Z.eqb_eq. Qed.

(** C3: for every [Distribution] and every data matrix, [evaluate(data)]
    is the mean of [logLikelihood(data)], negated, divided by [log(2)] and
    then by [dim()], for whatever [mean] and [log] the libraries supply. *)
Theorem evaluate_is_bits_per_dim
  (mean : list float -> float) (log : float -> float)
  {T} `{Density.Distribution T} (d : T) (data : Density.MatrixXf) :
  Density.evaluate mean log d data = Density.evaluate_spec mean log d data.
Proof. unfold Density.evaluate, Density.evaluate_spec. reflexivity. Qed.

(** C4: the default constructor of [Parameters] sets exactly the documented
    values. *)
Theorem Parameters_default_values :
  let p := Config.Parameters_default in
  Config.trainingMethod p = "SGD"%string /\
  Config.samplingMethod p = "Gibbs"%string /\
  Config.maxIter p = 10%Z /\ Config.adaptive p = true /\
  Config.SGD p = {| Config.SGDConf.maxIter := 1; Config.SGDConf.batchSize := 100;
                    Config.SGDConf.stepWidth := 0.001%float;
                    Config.SGDConf.momentum := 0.8%float;
                    Config.SGDConf.shuffle := true; Config.SGDConf.pocket := true |} /\
  Config.GSM p = {| Config.GSMConf.maxIter := 100; Config.GSMConf.tol := 1e-8%float |}.
Proof. repeat split. Qed.

(** C10: [setBasis(M)] accepts a matrix of any shape, after it [basis()]
    returns exactly [M], and the counts and the subspaces are unchanged. *)
Theorem setBasis_replaces_basis_only (m : ISA) (M : MatrixXd) :
  basis (setBasis m M) = M /\
  mNumVisibles (setBasis m M) = mNumVisibles m /\
  mNumHiddens (setBasis m M) = mNumHiddens m /\
  mSubspaces (setBasis m M) = mSubspaces m.
Proof. repeat split. Qed.

(* ================================================================== *)
(** * Finite sums, [ln] and [logsumexp] *)

Module RealFacts.

Import Utils.
Local Open Scope R_scope.

Section Sums.

Context {A : Type}.

Lemma rsum_map_ext (f g : A -> R) (l : list A) :
  (forall x, In x l -> f x = g x) -> rsum (map f l) = rsum (map g l).
Proof. intros H. f_equal. apply map_ext_in. exact H. Qed.

Lemma rsum_map_plus (f g : A -> R) (l : list A) :
  rsum (map (fun x => f x + g x) l) = rsum (map f l) + rsum (map g l).
Proof. induction l as [|a l IH]; simpl; [lra | rewrite IH; lra]. Qed.

Lemma rsum_map_minus (f g : A -> R) (l : list A) :
  rsum (map (fun x => f x - g x) l) = rsum (map f l) - rsum (map g l).
Proof. induction l as [|a l IH]; simpl; [lra | rewrite IH; lra]. Qed.

Lemma rsum_map_scal (c : R) (f : A -> R) (l : list A) :
  rsum (map (fun x => c * f x) l) = c * rsum (map f l).
Proof. induction l as [|a l IH]; simpl; [lra | rewrite IH; lra]. Qed.

Lemma rsum_map_le (f g : A -> R) (l : list A) :
  (forall x, In x l -> f x <= g x) -> rsum (map f l) <= rsum (map g l).
Proof.
  induction l as [|a l IH]; intros H; simpl; [lra|].
  apply Rplus_le_compat; [apply H; left; reflexivity |].
  apply IH. intros x Hx. apply H. right. exact Hx.
Qed.

Lemma rsum_map_nonneg (f : A -> R) (l : list A) :
  (forall x, In x l -> 0 <= f x) -> 0 <= rsum (map f l).
Proof.
  intros H. replace 0 with (rsum (map (fun _ : A => 0) l)).
  - apply rsum_map_le. exact H.
  - induction l; simpl; [reflexivity | rewrite IHl; [lra|]].
    intros x Hx. apply H. right. exact Hx.
Qed.

Lemma rsum_map_pos (f : A -> R) (l : list A) :
  l <> [] -> (forall x, In x l -> 0 < f x) -> 0 < rsum (map f l).
Proof.
  destruct l as [|a l]; intros Hne H; [congruence|]. simpl.
  assert (0 < f a) by (apply H; left; reflexivity).
  assert (0 <= rsum (map f l)).
  { apply rsum_map_nonneg. intros x Hx. left. apply H. right. exact Hx. }
  lra.
Qed.

Lemma rsum_map_const (c : R) (l : list A) :
  rsum (map (fun _ => c) l) = INR (length l) * c.
Proof.
  induction l as [|a l IH]; simpl; [lra|].
  rewrite IH. destruct l; simpl; lra.
Qed.

End Sums.

Lemma rsum_map_swap {A B : Type} (f : A -> B -> R) (la : list A) (lb : list B) :
  rsum (map (fun a => rsum (map (fun b => f a b) lb)) la) =
  rsum (map (fun b => rsum (map (fun a => f a b) la)) lb).
Proof.
  induction la as [|a la IH]; simpl.
  - symmetry. rewrite (rsum_map_const 0). lra.
  - rewrite IH. rewrite <- rsum_map_plus. reflexivity.
Qed.

Lemma ln_le_minus_one (x : R) : 0 < x -> ln x <= x - 1.
Proof.
  intros Hx. pose proof (exp_ineq1_le (ln x)) as H.
  rewrite exp_ln in H by exact Hx. lra.
Qed.

Lemma ln_le_mono (x y : R) : 0 < x -> x <= y -> ln x <= ln y.
Proof.
  intros Hx [Hlt | ->]; [| lra].
  left. apply ln_increasing; assumption.
Qed.

(** The stable reduction computes [ln (sum (exp l))]. *)
Lemma logsumexp_ln_sum_exp (l : list R) :
  logsumexp l = ln (rsum (map exp l)).
Proof.
  unfold logsumexp.
  set (m := fold_right Rmax (hd 0 l) l).
  assert (Hs : rsum (map (fun a => exp (a - m)) l) = exp (- m) * rsum (map exp l)).
  { rewrite <- rsum_map_scal. apply rsum_map_ext. intros a _.
    unfold Rminus. rewrite exp_plus. lra. }
  rewrite Hs.
  destruct l as [|a l'].
  - simpl. rewrite Rmult_0_r. subst m. simpl. lra.
  - rewrite ln_mult.
    + rewrite ln_exp. lra.
    + apply exp_pos.
    + apply rsum_map_pos; [discriminate | intros; apply exp_pos].
Qed.

(** Jensen's inequality for the concave [ln], with weights [r] summing to
    one: [sum r t <= ln (sum r exp(t))]. *)
Lemma jensen_ln {A : Type} (r t : A -> R) (l : list A) :
  (forall x, In x l -> 0 <= r x) -> rsum (map r l) = 1 ->
  rsum (map (fun x => r x * t x) l) <= ln (rsum (map (fun x => r x * exp (t x)) l)).
Proof.
  intros Hr H1.
  set (T := rsum (map (fun x => r x * t x) l)).
  assert (Hge : exp T <= rsum (map (fun x => r x * exp (t x)) l)).
  { apply Rle_trans with
      (rsum (map (fun x => exp T * r x + exp T * (r x * t x) - exp T * T * r x) l)).
    - rewrite rsum_map_minus, rsum_map_plus, !rsum_map_scal, H1.
      fold T. lra.
    - apply rsum_map_le. intros x Hx.
      pose proof (exp_ineq1_le (t x - T)) as He.
      replace (exp (t x)) with (exp T * exp (t x - T))
        by (rewrite <- exp_plus; f_equal; lra).
      pose proof (exp_pos T). pose proof (Hr x Hx).
      apply Rle_trans with (r x * (exp T * (1 + (t x - T)))); [lra|].
      apply Rmult_le_compat_l; [assumption|].
      apply Rmult_le_compat_l; lra. }
  rewrite <- (ln_exp T). apply ln_le_mono; [apply exp_pos | exact Hge].
Qed.

End RealFacts.

(* ================================================================== *)
(** * GSM facts *)

Module GSMFacts.

Import Utils RealFacts GSMModel.
Local Open Scope R_scope.

Lemma exp_neg_ln (S : R) : 0 < S -> exp (- ln S) = / S.
Proof. intros HS. rewrite exp_Ropp, exp_ln by exact HS. reflexivity. Qed.

Lemma filter_all {A : Type} (f : A -> bool) (l : list A) :
  (forall x, In x l -> f x = true) -> filter f l = l.
Proof.
  induction l as [|a l IH]; intros H; simpl; [reflexivity|].
  rewrite H by (left; reflexivity). f_equal. apply IH. intros x Hx. apply H. right. exact Hx.
Qed.

Lemma rsum_map_filter {A : Type} (b : A -> bool) (f : A -> R) (l : list A) :
  rsum (map (fun x => if b x then f x else 0) l) = rsum (map f (filter b l)).
Proof.
  induction l as [|a l IH]; simpl; [reflexivity|].
  destruct (b a); simpl; rewrite IH; ring.
Qed.

Lemma pos_weight_true (p : R * R) : pos_weight p = true <-> 0 < snd p.
Proof. unfold pos_weight. destruct (Rlt_dec 0 (snd p)); split; congruence || tauto. Qed.

(** A GSM with a scale has a scale that contributes. *)
Lemma active_nonempty (g : GSM) : params g <> [] -> filter (active g) (params g) <> [].
Proof.
  intros Hne. destruct (has_weight g) eqn:Hw.
  - unfold has_weight in Hw. apply existsb_exists in Hw as [p [Hp Hpw]].
    intros E. assert (Hin : In p (filter (active g) (params g))).
    { apply filter_In. split; [exact Hp|]. unfold active. unfold has_weight.
      replace (existsb pos_weight (params g)) with true
        by (symmetry; apply existsb_exists; eauto).
      exact Hpw. }
    rewrite E in Hin. exact Hin.
  - rewrite filter_all; [exact Hne|]. intros x _. unfold active. rewrite Hw. reflexivity.
Qed.

(** With positive weights every scale contributes. *)
Lemma active_all (h : GSM) :
  Forall (fun p => 0 < snd p) (params h) -> forall p, In p (params h) -> active h p = true.
Proof.
  intros Hf p Hp. rewrite Forall_forall in Hf.
  assert (Hpw : pos_weight p = true) by (apply pos_weight_true; apply Hf; exact Hp).
  unfold active.
  replace (has_weight h) with true
    by (symmetry; unfold has_weight; apply existsb_exists; eauto).
  exact Hpw.
Qed.

Lemma sum_exp_logJoints_pos (g : GSM) (s : R) :
  params g <> [] -> 0 < rsum (map exp (logJoints g s)).
Proof.
  intros Hne. unfold logJoints. rewrite map_map.
  apply rsum_map_pos; [apply active_nonempty; exact Hne | intros; apply exp_pos].
Qed.

(** A responsibility is the joint density over the sum of the joints. *)
Lemma resp_ratio (g : GSM) (s : R) (p : R * R) :
  params g <> [] -> active g p = true ->
  resp g s p = exp (logJoint (dim g) p s) / rsum (map exp (logJoints g s)).
Proof.
  intros Hne Ha. unfold resp. rewrite Ha, logsumexp_ln_sum_exp.
  unfold Rminus. rewrite exp_plus, exp_neg_ln by (apply sum_exp_logJoints_pos; exact Hne).
  reflexivity.
Qed.

Lemma resp_inactive (g : GSM) (s : R) (p : R * R) : active g p = false -> resp g s p = 0.
Proof. intros Ha. unfold resp. rewrite Ha. reflexivity. Qed.

Lemma resp_pos (g : GSM) (s : R) (p : R * R) : active g p = true -> 0 < resp g s p.
Proof. intros Ha. unfold resp. rewrite Ha. apply exp_pos. Qed.

Lemma resp_nonneg (g : GSM) (s : R) (p : R * R) : 0 <= resp g s p.
Proof.
  destruct (active g p) eqn:Ha; [left; apply resp_pos; exact Ha|].
  rewrite resp_inactive by exact Ha. right. reflexivity.
Qed.

Lemma resp_sum_one (g : GSM) (s : R) :
  params g <> [] -> rsum (map (resp g s) (params g)) = 1.
Proof.
  intros Hne. pose proof (sum_exp_logJoints_pos g s Hne) as HS.
  rewrite (rsum_map_ext _ (fun p => if active g p then
                                      / rsum (map exp (logJoints g s)) *
                                      exp (logJoint (dim g) p s) else 0)).
  - rewrite rsum_map_filter, rsum_map_scal.
    replace (rsum (map (fun p => exp (logJoint (dim g) p s)) (filter (active g) (params g))))
      with (rsum (map exp (logJoints g s)))
      by (unfold logJoints; rewrite map_map; reflexivity).
    field. lra.
  - intros p _. destruct (active g p) eqn:Ha.
    + rewrite resp_ratio by assumption. unfold Rdiv. ring.
    + apply resp_inactive. exact Ha.
Qed.

(** Positive variances and non-negative weights of positive total give a
    positive weighted sum of the variances. *)
Lemma weighted_variance_pos (ps : list (R * R)) :
  Forall (fun p => 0 < fst p /\ 0 <= snd p) ps ->
  0 < rsum (map snd ps) ->
  0 < rsum (map (fun p => snd p * fst p) ps).
Proof.
  induction ps as [|p ps IH]; intros Hf Hw; simpl in *; [lra|].
  inversion Hf as [|? ? [Hv Hp] Hf']; subst.
  assert (0 <= rsum (map (fun p => snd p * fst p) ps)).
  { apply rsum_map_nonneg. intros q Hq. rewrite Forall_forall in Hf'.
    destruct (Hf' q Hq). apply Rmult_le_pos; lra. }
  destruct Hp as [Hp | Hp].
  - assert (0 < snd p * fst p) by (apply Rmult_lt_0_compat; lra). lra.
  - rewrite <- Hp in *. assert (0 < rsum (map snd ps)) by lra.
    specialize (IH Hf' H0). lra.
Qed.

Lemma no_zero_variance (ps : list (R * R)) :
  ps <> [] -> Forall (fun p => 0 < fst p /\ 0 <= snd p) ps ->
  forallb (fun v => if Req_dec_T v 0 then true else false) (map fst ps) = false.
Proof.
  destruct ps as [|p ps]; intros Hne Hf; [congruence|].
  inversion Hf as [|? ? [Hv _] _]; subst. simpl.
  destruct (Req_dec_T (fst p) 0); [lra | reflexivity].
Qed.

(** Positive variances and weights summing to one are not degenerate. *)
Lemma not_degenerate (g : GSM) :
  Forall (fun p => 0 < fst p /\ 0 <= snd p) (params g) ->
  rsum (priors g) = 1 -> degenerate g = None.
Proof.
  intros Hf Hsum. unfold degenerate.
  destruct (Req_dec_T (rsum (priors g)) 0) as [E|_]; [lra|].
  unfold scales. rewrite no_zero_variance; [reflexivity | | exact Hf].
  intros E. unfold priors in Hsum. rewrite E in Hsum. simpl in Hsum. lra.
Qed.

Lemma variance_ok (g : GSM) :
  Forall (fun p => 0 < fst p /\ 0 <= snd p) (params g) ->
  0 < rsum (priors g) ->
  variance g = Ok (rsum (map (fun p => snd p * fst p) (params g)) / rsum (priors g)).
Proof.
  intros Hf Hw. unfold variance.
  destruct (Req_dec_T (rsum (priors g)) 0) as [E|_]; [lra|].
  unfold scales. rewrite no_zero_variance; [reflexivity | | exact Hf].
  intros E. unfold priors in Hw. rewrite E in Hw. simpl in Hw. lra.
Qed.

End GSMFacts.

(* ================================================================== *)
(** * Claims about the GSM *)

Module GSMClaims.

Import Utils RealFacts GSMModel GSMFacts.
Local Open Scope R_scope.

(** C6: for a GSM with positive variances, non-negative weights and a
    positive total weight, [normalize()] succeeds; afterwards [variance()]
    is 1, every ratio of two variances is what it was, and the weights,
    the dimension and the number of scales are unchanged. *)
Theorem normalize_unit_variance (g : GSM) :
  Forall (fun p => 0 < fst p /\ 0 <= snd p) (params g) ->
  0 < rsum (priors g) ->
  exists g', normalize g = Ok g' /\
    variance g' = Ok 1 /\
    priors g' = priors g /\ dim g' = dim g /\ numScales g' = numScales g /\
    (forall i j, nth i (scales g') 0 / nth j (scales g') 0 =
                 nth i (scales g) 0 / nth j (scales g) 0).
Proof.
  intros Hf Hw.
  set (wv := rsum (map (fun p => snd p * fst p) (params g))).
  set (tw := rsum (priors g)).
  assert (Hwv : 0 < wv) by (apply weighted_variance_pos; assumption).
  set (v0 := wv / tw).
  assert (Hv0 : 0 < v0) by (unfold v0; apply Rdiv_lt_0_compat; assumption).
  set (g' := {| dim := dim g; params := map (fun p => (fst p / v0, snd p)) (params g) |}).
  exists g'.
  assert (Hpri : priors g' = priors g).
  { unfold priors, g'. simpl. rewrite map_map. reflexivity. }
  split; [unfold normalize; rewrite variance_ok by assumption; reflexivity|].
  split.
  { rewrite variance_ok.
    - f_equal. rewrite Hpri. fold tw. simpl. rewrite map_map. simpl.
      rewrite (rsum_map_ext _ (fun p => / v0 * (snd p * fst p))) by
        (intros; unfold Rdiv; ring).
      rewrite rsum_map_scal. fold wv. unfold v0. assert (0 < tw) by exact Hw. field. split; lra.
    - simpl. apply Forall_map. eapply Forall_impl; [| exact Hf].
      simpl. intros p [Hp1 Hp2]. split; [apply Rdiv_lt_0_compat|]; assumption.
    - rewrite Hpri. exact Hw. }
  split; [exact Hpri|]. split; [reflexivity|].
  split; [unfold numScales; simpl; apply length_map|].
  intros i j. unfold scales. simpl. rewrite !map_map. simpl.
  assert (Hn : forall (l : list (R * R)) k,
             nth k (map (fun p => fst p / v0) l) 0 = nth k (map fst l) 0 / v0).
  { induction l as [|q l IH]; intros [|k]; simpl; try apply IH; unfold Rdiv; ring. }
  rewrite !Hn.
  set (a := nth i (map fst (params g)) 0). set (b := nth j (map fst (params g)) 0).
  destruct (Req_dec_T b 0) as [Hb | Hb].
  - rewrite Hb. unfold Rdiv. rewrite Rmult_0_l, !Rinv_0. ring.
  - field. split; lra.
Qed.


End GSMClaims.

(* ================================================================== *)
(** * One EM iteration does not decrease the log-likelihood *)

Module EMFacts.

Import Utils RealFacts GSMModel GSMFacts.
Local Open Scope R_scope.

(** Difference of two log-joints of the same sample. *)
Lemma logJoint_diff (d : nat) (q q' : R * R) (s : R) :
  0 < fst q -> 0 < fst q' ->
  logJoint d q' s - logJoint d q s =
  (ln (snd q') - ln (snd q)) - INR d / 2 * (ln (fst q') - ln (fst q))
  - s * (/ (2 * fst q') - / (2 * fst q)).
Proof.
  intros Hv Hv'. unfold logJoint.
  assert (H2pi : 0 < 2 * PI) by (pose proof PI_RGT_0; lra).
  rewrite (ln_mult (2 * PI) (fst q')), (ln_mult (2 * PI) (fst q)) by assumption.
  unfold Rdiv. ring.
Qed.

Section Step.

Variable g : GSM.
Variable ss : list R.

Hypothesis Hpos : Forall (fun p => 0 < fst p /\ 0 < snd p) (params g).
Hypothesis Hsum : rsum (map snd (params g)) = 1.

Definition Rk (p : R * R) : R := rsum (map (fun s => resp g s p) ss).
Definition Sk (p : R * R) : R := rsum (map (fun s => resp g s p * s) ss).

Lemma mstep_eq (p : R * R) :
  mstep g ss p =
  ((if Rlt_dec 0 (Sk p / (INR (dim g) * Rk p)) then Sk p / (INR (dim g) * Rk p)
    else fst p), Rk p / INR (length ss)).
Proof. reflexivity. Qed.

Lemma params_nonempty : params g <> [].
Proof. intros E. rewrite E in Hsum. simpl in Hsum. lra. Qed.

Lemma in_params_pos (p : R * R) : In p (params g) -> 0 < fst p /\ 0 < snd p.
Proof. intros Hp. rewrite Forall_forall in Hpos. apply Hpos. exact Hp. Qed.

Lemma mstep_variance_pos (p : R * R) :
  In p (params g) -> 0 < fst (mstep g ss p).
Proof.
  intros Hp. rewrite mstep_eq. simpl.
  destruct (Rlt_dec 0 _) as [H|_]; [exact H | apply in_params_pos; exact Hp].
Qed.

Lemma step_active (p : R * R) : In p (params g) -> active g p = true.
Proof.
  apply active_all. eapply Forall_impl; [| exact Hpos]. intros q [_ Hq]. exact Hq.
Qed.

Lemma length_pos : ss <> [] -> 0 < INR (length ss).
Proof. intros Hne. apply lt_0_INR. destruct ss; simpl; [congruence | lia]. Qed.

Lemma Rk_pos (p : R * R) : ss <> [] -> In p (params g) -> 0 < Rk p.
Proof.
  intros Hne Hp. apply rsum_map_pos; [exact Hne|].
  intros; apply resp_pos, step_active; exact Hp.
Qed.

Lemma Rk_nonneg (p : R * R) : 0 <= Rk p.
Proof. apply rsum_map_nonneg. intros. apply resp_nonneg. Qed.

Lemma mstep_weight_pos (p : R * R) :
  ss <> [] -> In p (params g) -> 0 < snd (mstep g ss p).
Proof.
  intros Hne Hp. rewrite mstep_eq. simpl.
  apply Rdiv_lt_0_compat; [apply Rk_pos | apply length_pos]; assumption.
Qed.

(** On at least one sample every scale of the next iterate contributes. *)
Lemma em_step_all_active :
  ss <> [] ->
  filter (active (em_step g ss)) (params (em_step g ss)) = params (em_step g ss).
Proof.
  intros Hne. apply filter_all, active_all. simpl.
  apply Forall_map, Forall_forall. intros p Hp. apply mstep_weight_pos; assumption.
Qed.

(** Per sample: the new log-likelihood is at least the old one plus the
    responsibility-weighted change of the log-joints (Jensen). *)
Lemma sample_step (s : R) :
  ss <> [] ->
  logLikelihoodSample g s +
  rsum (map (fun p => resp g s p *
                      (logJoint (dim g) (mstep g ss p) s - logJoint (dim g) p s))
            (params g))
  <= logLikelihoodSample (em_step g ss) s.
Proof.
  intros Hne.
  set (A := rsum (map exp (logJoints g s))).
  assert (HA : 0 < A) by (apply sum_exp_logJoints_pos, params_nonempty).
  unfold logLikelihoodSample at 2. rewrite logsumexp_ln_sum_exp.
  unfold logJoints at 1. rewrite (em_step_all_active Hne). simpl. rewrite !map_map.
  rewrite (rsum_map_ext (fun p => exp (logJoint (dim g) (mstep g ss p) s))
             (fun p => resp g s p *
                       exp (logJoint (dim g) (mstep g ss p) s
                            - logJoint (dim g) p s + ln A))).
  2:{ intros p Hp. rewrite resp_ratio by (apply params_nonempty || apply step_active; exact Hp). fold A.
      unfold Rminus. rewrite !exp_plus, exp_Ropp, exp_ln by exact HA.
      field. split; [apply exp_neq_0 | lra]. }
  eapply Rle_trans; [| apply jensen_ln].
  - rewrite (rsum_map_ext
               (fun p => resp g s p * (logJoint (dim g) (mstep g ss p) s
                                       - logJoint (dim g) p s + ln A))
               (fun p => resp g s p * (logJoint (dim g) (mstep g ss p) s
                                       - logJoint (dim g) p s) + ln A * resp g s p))
      by (intros; ring).
    rewrite rsum_map_plus, rsum_map_scal, resp_sum_one by apply params_nonempty.
    unfold logLikelihoodSample. rewrite logsumexp_ln_sum_exp. fold A. lra.
  - intros p _. apply resp_nonneg.
  - apply resp_sum_one, params_nonempty.
Qed.

(** Summed over the samples, with the double sum exchanged. *)
Lemma total_step :
  ss <> [] ->
  totalLogLikelihood g ss +
  rsum (map (fun p => rsum (map (fun s => resp g s p *
              (logJoint (dim g) (mstep g ss p) s - logJoint (dim g) p s)) ss))
            (params g))
  <= totalLogLikelihood (em_step g ss) ss.
Proof.
  intros Hne. unfold totalLogLikelihood.
  rewrite <- (rsum_map_swap (fun s p => resp g s p *
              (logJoint (dim g) (mstep g ss p) s - logJoint (dim g) p s))).
  rewrite <- rsum_map_plus. apply rsum_map_le. intros s _. apply sample_step, Hne.
Qed.

(** The responsibilities of all scales add up to the number of samples. *)
Lemma Rk_total : rsum (map Rk (params g)) = INR (length ss).
Proof.
  unfold Rk.
  rewrite (rsum_map_swap (fun p s => resp g s p) (params g) ss).
  rewrite (rsum_map_ext _ (fun _ => 1)).
  - rewrite rsum_map_const. ring.
  - intros s _. apply resp_sum_one, params_nonempty.
Qed.

(** The gain of scale [p]: a weight part and a variance part. *)
Lemma gain_split (p : R * R) :
  In p (params g) ->
  rsum (map (fun s => resp g s p *
              (logJoint (dim g) (mstep g ss p) s - logJoint (dim g) p s)) ss) =
  Rk p * (ln (snd (mstep g ss p)) - ln (snd p)) +
  (- (INR (dim g) / 2) * Rk p * (ln (fst (mstep g ss p)) - ln (fst p))
   - Sk p * (/ (2 * fst (mstep g ss p)) - / (2 * fst p))).
Proof.
  intros Hp.
  pose proof (in_params_pos p Hp) as [Hv _].
  pose proof (mstep_variance_pos p Hp) as Hv'.
  set (c1 := (ln (snd (mstep g ss p)) - ln (snd p))
             - INR (dim g) / 2 * (ln (fst (mstep g ss p)) - ln (fst p))).
  set (c2 := / (2 * fst (mstep g ss p)) - / (2 * fst p)).
  rewrite (rsum_map_ext _ (fun s => c1 * resp g s p - c2 * (resp g s p * s))).
  - rewrite rsum_map_minus, !rsum_map_scal. fold (Rk p) (Sk p).
    unfold c1, c2. ring.
  - intros s _. rewrite logJoint_diff by assumption. unfold c1, c2. ring.
Qed.

(** M-step for the weights: with weights summing to one, the average
    responsibilities do not lower the expected log-weight. *)
Lemma weight_part :
  ss <> [] ->
  0 <= rsum (map (fun p => Rk p * (ln (snd (mstep g ss p)) - ln (snd p))) (params g)).
Proof.
  intros Hne. pose proof (length_pos Hne) as HN.
  apply Rle_trans with (rsum (map (fun p => Rk p - INR (length ss) * snd p) (params g))).
  - rewrite rsum_map_minus, rsum_map_scal, Rk_total, Hsum. lra.
  - apply rsum_map_le. intros p Hp.
    pose proof (in_params_pos p Hp) as [_ Hw].
    pose proof (Rk_pos p Hne Hp) as HR.
    rewrite mstep_eq. simpl.
    set (N := INR (length ss)) in *. set (w := snd p) in *. set (r := Rk p) in *.
    assert (Hr' : 0 < r / N) by (apply Rdiv_lt_0_compat; assumption).
    assert (Hx : 0 < w * / (r / N)) by (apply Rmult_lt_0_compat; [| apply Rinv_0_lt_compat]; assumption).
    pose proof (ln_le_minus_one _ Hx) as Hle.
    rewrite ln_mult, ln_Rinv in Hle by (try apply Rinv_0_lt_compat; assumption).
    assert (Hm : r * (ln w + - ln (r / N)) <= r * (w * / (r / N) - 1))
      by (apply Rmult_le_compat_l; lra).
    replace (r * (w * / (r / N) - 1)) with (N * w - r) in Hm by (field; lra).
    lra.
Qed.

(** M-step for one variance: the responsibility-weighted second moment
    maximises the expected log-density; keeping the old variance changes
    nothing. *)
Lemma variance_part (p : R * R) :
  In p (params g) ->
  0 <= - (INR (dim g) / 2) * Rk p * (ln (fst (mstep g ss p)) - ln (fst p))
       - Sk p * (/ (2 * fst (mstep g ss p)) - / (2 * fst p)).
Proof.
  intros Hp. pose proof (in_params_pos p Hp) as [Hv _].
  rewrite mstep_eq. simpl.
  destruct (Rlt_dec 0 (Sk p / (INR (dim g) * Rk p))) as [H | H]; [| right; ring].
  set (v' := Sk p / (INR (dim g) * Rk p)) in *.
  set (v := fst p) in *.
  set (D := INR (dim g) * Rk p).
  assert (HD : D <> 0).
  { intros E. unfold v', D in H. fold D in H. rewrite E in H.
    unfold Rdiv in H. rewrite Rinv_0, Rmult_0_r in H. lra. }
  assert (HD0 : 0 <= D) by (apply Rmult_le_pos; [apply pos_INR | apply Rk_nonneg]).
  assert (HS : Sk p = v' * D) by (unfold v'; fold D; field; exact HD).
  assert (Hx : 0 < v' / v) by (apply Rdiv_lt_0_compat; assumption).
  pose proof (ln_le_minus_one _ Hx) as Hle.
  unfold Rdiv in Hle. rewrite ln_mult, ln_Rinv in Hle by (try apply Rinv_0_lt_compat; assumption).
  rewrite HS.
  replace (- (INR (dim g) / 2) * Rk p * (ln v' - ln v) - v' * D * (/ (2 * v') - / (2 * v)))
    with (D / 2 * (v' * / v - 1 - (ln v' + - ln v)))
    by (unfold D; field; split; lra).
  apply Rmult_le_pos; [lra | lra].
Qed.

(** One EM iteration does not decrease the total log-likelihood. *)
Lemma em_step_monotone :
  totalLogLikelihood g ss <= totalLogLikelihood (em_step g ss) ss.
Proof.
  assert (Hc : ss = [] \/ ss <> []) by (destruct ss; [left | right]; congruence).
  destruct Hc as [E | Hne].
  - unfold totalLogLikelihood. rewrite E. simpl. lra.
  - eapply Rle_trans; [| apply total_step, Hne].
    rewrite (rsum_map_ext _ (fun p => Rk p * (ln (snd (mstep g ss p)) - ln (snd p)) +
               (- (INR (dim g) / 2) * Rk p * (ln (fst (mstep g ss p)) - ln (fst p))
                - Sk p * (/ (2 * fst (mstep g ss p)) - / (2 * fst p))))).
    + rewrite rsum_map_plus.
      pose proof (weight_part Hne).
      assert (0 <= rsum (map (fun p => - (INR (dim g) / 2) * Rk p *
                 (ln (fst (mstep g ss p)) - ln (fst p))
                 - Sk p * (/ (2 * fst (mstep g ss p)) - / (2 * fst p))) (params g)))
        by (apply rsum_map_nonneg; exact variance_part).
      lra.
    + exact gain_split.
Qed.

(** On at least one sample, an EM iteration keeps the variances and the
    weights positive and the weights summing to one. *)
Lemma em_step_wf :
  ss <> [] ->
  Forall (fun p => 0 < fst p /\ 0 < snd p) (params (em_step g ss)) /\
  rsum (map snd (params (em_step g ss))) = 1.
Proof.
  intros Hne. pose proof (length_pos Hne) as HN. split.
  - simpl. apply Forall_map, Forall_forall. intros p Hp.
    split; [apply mstep_variance_pos; exact Hp|].
    apply mstep_weight_pos; assumption.
  - simpl. rewrite map_map.
    rewrite (rsum_map_ext _ (fun p => / INR (length ss) * Rk p))
      by (intros p _; rewrite mstep_eq; simpl; unfold Rdiv; ring).
    rewrite rsum_map_scal, Rk_total. field. lra.
Qed.

End Step.

Section Iterations.

Variable ss : list R.
Variable tol : R.

Definition em_iter (k : nat) (g : GSM) : GSM := Nat.iter k (fun h => em_step h ss) g.

Lemma em_iter_wf (g : GSM) (k : nat) :
  ss <> [] ->
  Forall (fun p => 0 < fst p /\ 0 < snd p) (params g) ->
  rsum (map snd (params g)) = 1 ->
  Forall (fun p => 0 < fst p /\ 0 < snd p) (params (em_iter k g)) /\
  rsum (map snd (params (em_iter k g))) = 1.
Proof.
  intros Hne Hpos Hsum. induction k as [|k IH]; [split; assumption|].
  destruct IH as [IH1 IH2]. apply em_step_wf; assumption.
Qed.

Lemma em_iter_monotone (g : GSM) (k : nat) :
  Forall (fun p => 0 < fst p /\ 0 < snd p) (params g) ->
  rsum (map snd (params g)) = 1 ->
  totalLogLikelihood (em_iter k g) ss <= totalLogLikelihood (em_iter (S k) g) ss.
Proof.
  intros Hpos Hsum.
  assert (Hc : ss = [] \/ ss <> []) by (destruct ss; [left | right]; congruence).
  destruct Hc as [E | Hne].
  - unfold totalLogLikelihood. rewrite E. simpl. lra.
  - destruct (em_iter_wf g k Hne Hpos Hsum) as [H1 H2].
    apply em_step_monotone; assumption.
Qed.

(** [train_iter] stops after some [k <= n] iterations, at the [k]-th
    EM iterate. *)
Lemma train_iter_trace (n : nat) (g : GSM) :
  exists k, (k <= n)%nat /\ fst (train_iter n g ss tol) = em_iter k g.
Proof.
  revert g. induction n as [|n IH]; intros g.
  - exists 0%nat. split; reflexivity.
  - simpl. destruct (Rlt_dec _ tol).
    + exists 1%nat. split; [lia | reflexivity].
    + destruct (IH (em_step g ss)) as [k [Hk E]].
      exists (S k). split; [lia|]. rewrite E. unfold em_iter.
      rewrite Nat.iter_succ_r. reflexivity.
Qed.

End Iterations.

(** ** Scales of weight 0

    A GSM with non-negative weights behaves as the GSM of its contributing
    scales; an EM iteration keeps a scale of weight 0 at weight 0. *)

Definition restrict (g : GSM) : GSM :=
  {| dim := dim g; params := filter (active g) (params g) |}.

Lemma has_weight_restrict (h : GSM) : has_weight (restrict h) = has_weight h.
Proof.
  unfold has_weight. simpl.
  destruct (existsb pos_weight (params h)) eqn:Hw.
  - apply existsb_exists in Hw as [x [Hx Hpx]]. apply existsb_exists.
    exists x. split; [| exact Hpx]. apply filter_In. split; [exact Hx|].
    unfold active, has_weight.
    replace (existsb pos_weight (params h)) with true
      by (symmetry; apply existsb_exists; eauto).
    exact Hpx.
  - destruct (existsb pos_weight (filter (active h) (params h))) eqn:Hr; [| reflexivity].
    apply existsb_exists in Hr as [x [Hx Hpx]]. apply filter_In in Hx as [Hx _].
    assert (existsb pos_weight (params h) = true) by (apply existsb_exists; eauto).
    congruence.
Qed.

Lemma active_restrict (h : GSM) (p : R * R) : active (restrict h) p = active h p.
Proof. unfold active. rewrite has_weight_restrict. reflexivity. Qed.

Lemma restrict_logJoints (h : GSM) (s : R) : logJoints (restrict h) s = logJoints h s.
Proof.
  unfold logJoints at 1. rewrite filter_all.
  - reflexivity.
  - intros q Hq. simpl in Hq. apply filter_In in Hq as [_ Hq].
    rewrite active_restrict. exact Hq.
Qed.

Lemma restrict_resp (h : GSM) (s : R) (p : R * R) : resp (restrict h) s p = resp h s p.
Proof. unfold resp. rewrite active_restrict, restrict_logJoints. reflexivity. Qed.

Lemma restrict_total (h : GSM) (ss : list R) :
  totalLogLikelihood (restrict h) ss = totalLogLikelihood h ss.
Proof.
  unfold totalLogLikelihood, logLikelihoodSample. f_equal. apply map_ext. intros s.
  rewrite restrict_logJoints. reflexivity.
Qed.

Lemma filter_map_comm {A B : Type} (f : B -> bool) (h : A -> B) (k : A -> bool) (l : list A) :
  (forall x, In x l -> f (h x) = k x) -> filter f (map h l) = map h (filter k l).
Proof.
  induction l as [|a l IH]; intros H; simpl; [reflexivity|].
  rewrite H by (left; reflexivity).
  destruct (k a); simpl; rewrite IH by (intros x Hx; apply H; right; exact Hx); reflexivity.
Qed.

Section Restrict.

Variable ss : list R.
Hypothesis Hne : ss <> [].

Lemma mstep_weight (g : GSM) (p : R * R) :
  snd (mstep g ss p) = rsum (map (fun s => resp g s p) ss) / INR (length ss).
Proof. reflexivity. Qed.

(** A contributing scale keeps a positive weight, a scale of weight 0
    gets weight 0. *)
Lemma pos_weight_mstep (g : GSM) (p : R * R) :
  pos_weight (mstep g ss p) = active g p.
Proof.
  assert (HN : 0 < INR (length ss)) by (apply lt_0_INR; destruct ss; simpl; [congruence | lia]).
  destruct (active g p) eqn:Ha.
  - apply pos_weight_true. rewrite mstep_weight.
    apply Rdiv_lt_0_compat; [| exact HN].
    apply rsum_map_pos; [exact Hne | intros; apply resp_pos; exact Ha].
  - destruct (pos_weight (mstep g ss p)) eqn:Hp; [exfalso | reflexivity].
    apply pos_weight_true in Hp. rewrite mstep_weight in Hp.
    rewrite (rsum_map_ext _ (fun _ => 0)) in Hp by (intros; apply resp_inactive; exact Ha).
    rewrite rsum_map_const, Rmult_0_r in Hp. unfold Rdiv in Hp. rewrite Rmult_0_l in Hp. lra.
Qed.

Lemma has_weight_em_step (g : GSM) :
  has_weight g = true -> has_weight (em_step g ss) = true.
Proof.
  intros Hw. unfold has_weight in *. simpl.
  apply existsb_exists in Hw as [p [Hp Hpw]]. apply existsb_exists.
  exists (mstep g ss p). split; [apply in_map; exact Hp|].
  rewrite pos_weight_mstep. unfold active, has_weight.
  replace (existsb pos_weight (params g)) with true
    by (symmetry; apply existsb_exists; eauto).
  exact Hpw.
Qed.

Lemma restrict_em_step (g : GSM) :
  has_weight g = true -> restrict (em_step g ss) = em_step (restrict g) ss.
Proof.
  intros Hw.
  assert (Hm : forall p, mstep (restrict g) ss p = mstep g ss p).
  { intros p. unfold mstep.
    rewrite (map_ext (fun s => resp (restrict g) s p) (fun s => resp g s p))
      by (intros; apply restrict_resp).
    rewrite (map_ext (fun s => resp (restrict g) s p * s) (fun s => resp g s p * s))
      by (intros; rewrite restrict_resp; reflexivity).
    reflexivity. }
  assert (Hf : filter (active (em_step g ss)) (params (em_step g ss)) =
               map (mstep g ss) (filter (active g) (params g))).
  { change (params (em_step g ss)) with (map (mstep g ss) (params g)).
    apply filter_map_comm. intros p _. unfold active at 1.
    rewrite (has_weight_em_step g Hw). apply pos_weight_mstep. }
  unfold restrict at 1. rewrite Hf. unfold em_step.
  change (params (restrict g)) with (filter (active g) (params g)).
  f_equal. apply map_ext. intros p. symmetry. apply Hm.
Qed.

Lemma restrict_em_iter (g : GSM) (k : nat) :
  has_weight g = true ->
  has_weight (em_iter ss k g) = true /\ restrict (em_iter ss k g) = em_iter ss k (restrict g).
Proof.
  intros Hw. induction k as [|k [IH1 IH2]]; [split; [exact Hw | reflexivity]|].
  unfold em_iter in *. simpl. split.
  - apply has_weight_em_step. exact IH1.
  - rewrite restrict_em_step by exact IH1. rewrite IH2. reflexivity.
Qed.

End Restrict.

(** Positive variances and non-negative weights summing to one: the
    contributing scales have positive weights summing to one. *)
Lemma restrict_wf (g : GSM) :
  Forall (fun p => 0 < fst p /\ 0 <= snd p) (params g) ->
  rsum (map snd (params g)) = 1 ->
  has_weight g = true /\
  Forall (fun p => 0 < fst p /\ 0 < snd p) (params (restrict g)) /\
  rsum (map snd (params (restrict g))) = 1.
Proof.
  intros Hf Hsum.
  assert (Hw : has_weight g = true).
  { unfold has_weight. destruct (existsb pos_weight (params g)) eqn:E; [reflexivity|].
    exfalso. assert (Hz : rsum (map snd (params g)) = 0).
    { rewrite (rsum_map_ext _ (fun _ => 0)).
      - rewrite rsum_map_const. ring.
      - intros p Hp. rewrite Forall_forall in Hf. destruct (Hf p Hp) as [_ [Hlt | Heq]].
        + assert (existsb pos_weight (params g) = true)
            by (apply existsb_exists; exists p; split; [exact Hp | apply pos_weight_true; exact Hlt]).
          congruence.
        + symmetry. exact Heq. }
    lra. }
  assert (Ha : forall p, active g p = pos_weight p) by (intros; unfold active; rewrite Hw; reflexivity).
  split; [exact Hw | split].
  - apply Forall_forall. intros p Hp. simpl in Hp. apply filter_In in Hp as [Hp Hpa].
    rewrite Forall_forall in Hf. destruct (Hf p Hp) as [Hv _].
    rewrite Ha in Hpa. apply pos_weight_true in Hpa. split; assumption.
  - simpl. rewrite <- Hsum. rewrite <- rsum_map_filter.
    apply rsum_map_ext. intros p Hp. rewrite Ha.
    destruct (pos_weight p) eqn:Hpw; [reflexivity|].
    rewrite Forall_forall in Hf. destruct (Hf p Hp) as [_ [Hlt | Heq]]; [| exact Heq].
    apply pos_weight_true in Hlt. congruence.
Qed.

(** With positive variances and non-negative weights summing to one, an
    EM iteration does not decrease the total log-likelihood. *)
Lemma em_iter_monotone_nonneg (g : GSM) (ss : list R) (k : nat) :
  Forall (fun p => 0 < fst p /\ 0 <= snd p) (params g) ->
  rsum (map snd (params g)) = 1 ->
  totalLogLikelihood (em_iter ss k g) ss <= totalLogLikelihood (em_iter ss (S k) g) ss.
Proof.
  intros Hf Hsum.
  destruct (restrict_wf g Hf Hsum) as [Hw [Hpos Hsum']].
  assert (Hc : ss = [] \/ ss <> []) by (destruct ss; [left | right]; congruence).
  destruct Hc as [E | Hne].
  - unfold totalLogLikelihood. rewrite E. simpl. lra.
  - rewrite <- (restrict_total (em_iter ss k g)), <- (restrict_total (em_iter ss (S k) g)).
    rewrite (proj2 (restrict_em_iter ss Hne g k Hw)), (proj2 (restrict_em_iter ss Hne g (S k) Hw)).
    apply em_iter_monotone; assumption.
Qed.

End EMFacts.

(* ================================================================== *)
(** * Claims about training *)

Module TrainClaims.

Import Utils RealFacts GSMModel GSMFacts EMFacts.
Local Open Scope R_scope.

(** C8: for a GSM with positive variances and non-negative weights
    summing to one, and data of its dimensionality, [train(data, maxIter,
    tol)] succeeds after [k <= maxIter] EM iterations, and the total
    log-likelihood of the data does not decrease from one iterate to the
    next. *)
Theorem train_loglikelihood_nondecreasing (g0 : GSM) (data : MatrixXd)
  (maxIter : Z) (tol : R) :
  Forall (fun p => 0 < fst p /\ 0 <= snd p) (params g0) ->
  rsum (priors g0) = 1 ->
  shape_ok g0 data = true ->
  exists g conv k,
    train g0 data maxIter tol = Ok (g, conv) /\
    (k <= Z.to_nat maxIter)%nat /\
    g = em_iter (map sqnorm data) k g0 /\
    (forall i, (i < k)%nat ->
       totalLogLikelihood (em_iter (map sqnorm data) i g0) (map sqnorm data) <=
       totalLogLikelihood (em_iter (map sqnorm data) (S i) g0) (map sqnorm data)).
Proof.
  intros Hf Hsum Hshape.
  destruct (train_iter_trace (map sqnorm data) tol (Z.to_nat maxIter) g0) as [k [Hk E]].
  exists (fst (train_iter (Z.to_nat maxIter) g0 (map sqnorm data) tol)),
         (snd (train_iter (Z.to_nat maxIter) g0 (map sqnorm data) tol)), k.
  split.
  { unfold train. rewrite Hshape, not_degenerate by assumption.
    destruct (train_iter _ _ _ _); reflexivity. }
  split; [exact Hk|]. split; [exact E|].
  intros i _. apply em_iter_monotone_nonneg; assumption.
Qed.



End TrainClaims.

(* ================================================================== *)
(** * Stacked row blocks *)

Module BlockFacts.

Lemma zipWith_app_assoc {A} (P B C : list (list A)) :
  zipWith (@app A) P (zipWith (@app A) B C) =
  zipWith (@app A) (zipWith (@app A) P B) C.
Proof.
  revert B C. induction P as [|p P IH]; intros [|b B] [|c C]; simpl; try reflexivity.
  rewrite app_assoc, IH. reflexivity.
Qed.

Lemma zipWith_length {A B C} (f : A -> B -> C) l1 l2 :
  length (zipWith f l1 l2) = Nat.min (length l1) (length l2).
Proof.
  revert l2. induction l1 as [|a l1 IH]; intros [|b l2]; simpl; try reflexivity.
  rewrite IH. reflexivity.
Qed.

Lemma vconcat_length (n : nat) (blocks : list MatrixXd) :
  Forall (fun B => length B = n) blocks -> length (vconcat n blocks) = n.
Proof.
  induction 1 as [|B Bs HB _ IH]; simpl; [apply repeat_length|].
  rewrite zipWith_length, HB, IH. apply Nat.min_id.
Qed.

(** Rows [from .. from + d) of [P ++ B ++ C], column by column, are [B]. *)
Lemma middleRows_zipWith_app (P B C : MatrixXd) (from d : nat) :
  Forall (fun c => length c = from) P -> Forall (fun c => length c = d) B ->
  length P = length B -> length B = length C ->
  middleRows (zipWith (@app R) P (zipWith (@app R) B C)) from d = B.
Proof.
  intros HP. revert B C. induction HP as [|p P Hp HP IH]; intros B C HB HPB HBC.
  - destruct B; simpl in *; [reflexivity | discriminate].
  - destruct B as [|b B]; [discriminate|]. destruct C as [|c C]; [discriminate|].
    inversion HB as [|? ? Hb HB']; subst. simpl.
    rewrite skipn_app, Nat.sub_diag, skipn_all. simpl.
    rewrite firstn_app, Nat.sub_diag, firstn_all. simpl. rewrite app_nil_r.
    f_equal. apply IH; auto.
Qed.

Lemma energyGradient_length (g : GSMModel.GSM) (B : MatrixXd) :
  length (GSMModel.energyGradient g B) = length B.
Proof. apply length_map. Qed.

(** The generalised decomposition: rows above [from] are skipped. *)
Lemma priorEnergyGradient_from_blocks (subs : list GSMModel.GSM)
  (blocks : list MatrixXd) (n from : nat) (P : MatrixXd) :
  Forall2 (fun g B => length B = n /\ Forall (fun c => length c = GSMModel.dim g) B)
          subs blocks ->
  length P = n -> Forall (fun c => length c = from) P ->
  priorEnergyGradient_from subs from (zipWith (@app R) P (vconcat n blocks)) =
  vconcat n (zipWith GSMModel.energyGradient subs blocks).
Proof.
  intros H. revert from P. induction H as [|g B gs Bs [HBn HBd] Hrest IH];
    intros from P HPn HP.
  - simpl. rewrite <- HPn. clear.
    induction P as [|p P IH]; simpl; [reflexivity | rewrite IH; reflexivity].
  - assert (HRn : length (vconcat n Bs) = n).
    { apply vconcat_length. clear -Hrest. induction Hrest as [|? ? ? ? [? _]]; auto. }
    simpl vconcat. simpl priorEnergyGradient_from.
    rewrite middleRows_zipWith_app by (auto; congruence).
    f_equal. rewrite zipWith_app_assoc. apply IH.
    + rewrite zipWith_length, HPn, HBn. apply Nat.min_id.
    + clear -HP HBd. revert B HBd. induction HP as [|p P Hp HP IH]; intros B HBd;
        [simpl; constructor|].
      destruct B as [|b B]; simpl; [constructor|].
      inversion HBd as [|? ? Hb HBd'].
      constructor; [rewrite length_app; lia | auto].
Qed.

Lemma zipWith_app_nil_l (X : MatrixXd) :
  zipWith (@app R) (repeat [] (length X)) X = X.
Proof. induction X as [|x X IH]; simpl; [reflexivity | rewrite IH; reflexivity]. Qed.

Lemma rsum_nat_cons (d : nat) (ds : list nat) :
  fold_right Nat.add 0%nat (d :: ds) = (d + fold_right Nat.add 0%nat ds)%nat.
Proof. reflexivity. Qed.

(** Block [i] of a stack of blocks sits at the rows after blocks [0..i). *)
Lemma middleRows_vconcat_prefix (ds : list nat) (Cs : list MatrixXd) (n : nat) :
  Forall2 (fun d C => length C = n /\ Forall (fun c => length c = d) C) ds Cs ->
  forall i d C from (P : MatrixXd),
  nth_error ds i = Some d -> nth_error Cs i = Some C ->
  length P = n -> Forall (fun c => length c = from) P ->
  middleRows (zipWith (@app R) P (vconcat n Cs))
             (from + fold_right Nat.add 0%nat (firstn i ds)) d = C.
Proof.
  induction 1 as [|d0 C0 ds Cs [HC0n HC0d] Hrest IH];
    intros i d C from P Hd HC HPn HP; [destruct i; discriminate|].
  assert (HRn : length (vconcat n Cs) = n).
  { apply vconcat_length. clear -Hrest. induction Hrest as [|? ? ? ? [? _]]; auto. }
  destruct i as [|i]; simpl in Hd, HC.
  - injection Hd as <-. injection HC as <-. simpl. rewrite Nat.add_0_r.
    apply middleRows_zipWith_app; auto; congruence.
  - simpl vconcat. rewrite zipWith_app_assoc. simpl firstn. rewrite rsum_nat_cons.
    rewrite Nat.add_assoc. apply IH; auto.
    + rewrite zipWith_length, HPn, HC0n. apply Nat.min_id.
    + clear -HP HC0d. revert C0 HC0d. induction HP as [|p P Hp HP IH]; intros B HBd;
        [simpl; constructor|].
      destruct B as [|b B]; simpl; [constructor|].
      inversion HBd as [|? ? Hb HBd'].
      constructor; [rewrite length_app; lia | auto].
Qed.

Lemma energyGradient_shape (g : GSMModel.GSM) (B : MatrixXd) (d : nat) :
  Forall (fun c => length c = d) B ->
  Forall (fun c => length c = d) (GSMModel.energyGradient g B).
Proof.
  intros HB. unfold GSMModel.energyGradient. apply Forall_map.
  eapply Forall_impl; [| exact HB]. intros x Hx. simpl. rewrite length_map. exact Hx.
Qed.

Lemma gradient_blocks_shape (subs : list GSMModel.GSM) (blocks : list MatrixXd) (n : nat) :
  Forall2 (fun g B => length B = n /\ Forall (fun c => length c = GSMModel.dim g) B)
          subs blocks ->
  Forall2 (fun d C => length C = n /\ Forall (fun c => length c = d) C)
          (map GSMModel.dim subs) (zipWith GSMModel.energyGradient subs blocks).
Proof.
  induction 1 as [|g B gs Bs [HBn HBd] _ IH]; simpl; constructor; auto.
  split; [rewrite energyGradient_length; exact HBn | apply energyGradient_shape; exact HBd].
Qed.

Lemma nth_error_zipWith {A B C} (f : A -> B -> C) l1 l2 i a b :
  nth_error l1 i = Some a -> nth_error l2 i = Some b ->
  nth_error (zipWith f l1 l2) i = Some (f a b).
Proof.
  revert l2 i. induction l1 as [|x l1 IH]; intros [|y l2] [|i] H1 H2;
    simpl in *; try discriminate.
  - congruence.
  - apply IH; assumption.
Qed.

End BlockFacts.

(* ================================================================== *)
(** * The prior energy gradient of the ISA model *)

Module ISAClaims.

Import BlockFacts.

Lemma stack_length (subs : list GSMModel.GSM) (blocks : list MatrixXd) (n : nat) :
  Forall2 (fun g B => length B = n /\ Forall (fun c => length c = GSMModel.dim g) B)
          subs blocks ->
  length (vconcat n blocks) = n.
Proof.
  intros H. apply vconcat_length. induction H as [|? ? ? ? [? _]]; auto.
Qed.

Lemma empty_columns (n : nat) : Forall (fun c : list R => length c = 0%nat) (repeat [] n).
Proof. apply Forall_forall. intros c Hc. apply repeat_spec in Hc. subst. reflexivity. Qed.

(** C5: when [states] stacks one block per subspace (block [i] has the
    [i]-th GSM's dimensionality, all blocks have the same number of
    samples), [priorEnergyGradient(states)] stacks, in subspace order, the
    [energyGradient] of each subspace's GSM on its own block; so the rows
    of subspace [i] in the result are the [i]-th GSM's gradient of block
    [i] alone, whatever the other blocks hold. *)
Theorem priorEnergyGradient_per_subspace (m : ISA) (blocks : list MatrixXd) (n : nat) :
  Forall2 (fun g B => length B = n /\ Forall (fun c => length c = GSMModel.dim g) B)
          (mSubspaces m) blocks ->
  priorEnergyGradient m (vconcat n blocks) =
    vconcat n (zipWith GSMModel.energyGradient (mSubspaces m) blocks) /\
  (forall i g B, nth_error (mSubspaces m) i = Some g -> nth_error blocks i = Some B ->
     middleRows (priorEnergyGradient m (vconcat n blocks))
       (fold_right Nat.add 0%nat (firstn i (map GSMModel.dim (mSubspaces m))))
       (GSMModel.dim g)
     = GSMModel.energyGradient g B).
Proof.
  intros H.
  assert (Hfull : priorEnergyGradient m (vconcat n blocks) =
                  vconcat n (zipWith GSMModel.energyGradient (mSubspaces m) blocks)).
  { unfold priorEnergyGradient.
    rewrite <- (zipWith_app_nil_l (vconcat n blocks)).
    rewrite (stack_length _ _ _ H).
    apply priorEnergyGradient_from_blocks; [exact H | apply repeat_length | apply empty_columns]. }
  split; [exact Hfull|].
  intros i g B Hg HB. rewrite Hfull.
  pose proof (gradient_blocks_shape _ _ _ H) as Hs.
  assert (HCn : length (vconcat n (zipWith GSMModel.energyGradient (mSubspaces m) blocks)) = n).
  { apply vconcat_length. clear -Hs. induction Hs as [|? ? ? ? [? _]]; auto. }
  rewrite <- (zipWith_app_nil_l (vconcat n _)), HCn.
  change (fold_right Nat.add 0%nat (firstn i (map GSMModel.dim (mSubspaces m))))
    with (0 + fold_right Nat.add 0%nat (firstn i (map GSMModel.dim (mSubspaces m))))%nat.
  eapply middleRows_vconcat_prefix; [exact Hs | | | apply repeat_length | apply empty_columns].
  - rewrite nth_error_map, Hg. reflexivity.
  - apply nth_error_zipWith; assumption.
Qed.

End ISAClaims.

(* ================================================================== *)
(** * The theorems at concrete inputs *)

Module Witnesses.

Import Utils GSMModel.
Local Open Scope R_scope.

Lemma normalize_unit_variance_witness :
  Forall (fun p => 0 < fst p /\ 0 <= snd p) (params gsm_1d) /\
  0 < rsum (priors gsm_1d) /\
  exists g', normalize gsm_1d = Ok g' /\ variance g' = Ok 1 /\
    priors g' = priors gsm_1d /\ dim g' = dim gsm_1d /\
    numScales g' = numScales gsm_1d /\
    (forall i j, nth i (scales g') 0 / nth j (scales g') 0 =
                 nth i (scales gsm_1d) 0 / nth j (scales gsm_1d) 0).
Proof.
  assert (H1 : Forall (fun p => 0 < fst p /\ 0 <= snd p) (params gsm_1d))
    by (repeat constructor; simpl; lra).
  assert (H2 : 0 < rsum (priors gsm_1d)) by (simpl; lra).
  split; [exact H1 | split; [exact H2 | apply (GSMClaims.normalize_unit_variance gsm_1d H1 H2)]].
Defined.


Lemma train_loglikelihood_nondecreasing_witness :
  Forall (fun p => 0 < fst p /\ 0 <= snd p) (params gsm_zero_weight) /\
  rsum (priors gsm_zero_weight) = 1 /\ shape_ok gsm_zero_weight data_origin = true /\
  exists g conv k,
    train gsm_zero_weight data_origin 5 (/ 100000) = Ok (g, conv) /\
    (k <= Z.to_nat 5)%nat /\
    g = EMFacts.em_iter (map sqnorm data_origin) k gsm_zero_weight /\
    (forall i, (i < k)%nat ->
       totalLogLikelihood (EMFacts.em_iter (map sqnorm data_origin) i gsm_zero_weight)
                          (map sqnorm data_origin) <=
       totalLogLikelihood (EMFacts.em_iter (map sqnorm data_origin) (S i) gsm_zero_weight)
                          (map sqnorm data_origin)).
Proof.
  assert (H1 : Forall (fun p => 0 < fst p /\ 0 <= snd p) (params gsm_zero_weight))
    by (repeat constructor; simpl; lra).
  assert (H2 : rsum (priors gsm_zero_weight) = 1) by (simpl; lra).
  assert (H3 : shape_ok gsm_zero_weight data_origin = true) by reflexivity.
  split; [exact H1 | split; [exact H2 | split; [exact H3 |
    apply (TrainClaims.train_loglikelihood_nondecreasing gsm_zero_weight data_origin 5
             (/ 100000) H1 H2 H3)]]].
Defined.


Lemma priorEnergyGradient_per_subspace_witness :
  Forall2 (fun g B => length B = 2%nat /\ Forall (fun c => length c = dim g) B)
          (mSubspaces isa_two_subspaces) states_blocks /\
  priorEnergyGradient isa_two_subspaces (vconcat 2 states_blocks) =
    vconcat 2 (zipWith energyGradient (mSubspaces isa_two_subspaces) states_blocks) /\
  (forall i g B, nth_error (mSubspaces isa_two_subspaces) i = Some g ->
     nth_error states_blocks i = Some B ->
     middleRows (priorEnergyGradient isa_two_subspaces (vconcat 2 states_blocks))
       (fold_right Nat.add 0%nat (firstn i (map dim (mSubspaces isa_two_subspaces))))
       (dim g)
     = energyGradient g B).
Proof.
  assert (H : Forall2 (fun g B => length B = 2%nat /\ Forall (fun c => length c = dim g) B)
                      (mSubspaces isa_two_subspaces) states_blocks)
    by (repeat constructor).
  split; [exact H | apply (ISAClaims.priorEnergyGradient_per_subspace isa_two_subspaces states_blocks 2 H)].
Defined.

End Witnesses.

(* ================================================================== *)
(** * The Python wrappers of gsminterface.cpp *)

Module PyGSMFacts.

Import PyGSM.

Section Class.

Context {G : Type} (C : GSMClass G).

(** A non-array [data] argument is refused by every wrapper that takes
    data: [0] with a [TypeError], before the C++ member is called (the
    result does not depend on [C]) and with the GSM left as it was. *)
Theorem data_wrappers_reject_non_arrays (self : G) (data : PyObject)
  (max_iter : option Z) (tol : option float) :
  PyArray_Check data = false ->
  GSM_posterior C self data = NULL PyExc_TypeError data_type_message /\
  GSM_sample_posterior C self data = NULL PyExc_TypeError data_type_message /\
  GSM_loglikelihood C self data = NULL PyExc_TypeError data_type_message /\
  GSM_energy C self data = NULL PyExc_TypeError data_type_message /\
  GSM_energy_gradient C self data = NULL PyExc_TypeError data_type_message /\
  GSM_train C self data max_iter tol = (self, NULL PyExc_TypeError data_type_message).
Proof.
  intro Hdata.
  unfold GSM_posterior, GSM_sample_posterior, GSM_loglikelihood, GSM_energy,
    GSM_energy_gradient, data_method, GSM_train.
  rewrite Hdata. repeat split.
Qed.

(** Setting [scales] to a non-array fails with [-1] and a [TypeError],
    without calling [setScales] and with the GSM left as it was. *)
Theorem set_scales_rejects_non_arrays (self : G) (value : PyObject) :
  PyArray_Check value = false ->
  GSM_set_scales C self value = (self, Set_error PyExc_TypeError scales_type_message).
Proof. intro Hv. unfold GSM_set_scales. rewrite Hv. reflexivity. Qed.

(** An [Exception] thrown by the member a query wrapper calls reaches
    Python as a [RuntimeError] carrying the exception's message. *)
Theorem query_exceptions_become_RuntimeError (self : G) (m : MatrixXd)
  (num_samples : option Z) (msg : string) :
  (gsm_variance C self = Err msg ->
     GSM_variance C self = NULL PyExc_RuntimeError msg) /\
  (gsm_posterior C self m = Err msg ->
     GSM_posterior C self (PyArray m) = NULL PyExc_RuntimeError msg) /\
  (gsm_samplePosterior C self m = Err msg ->
     GSM_sample_posterior C self (PyArray m) = NULL PyExc_RuntimeError msg) /\
  (gsm_logLikelihood C self m = Err msg ->
     GSM_loglikelihood C self (PyArray m) = NULL PyExc_RuntimeError msg) /\
  (gsm_energy C self m = Err msg ->
     GSM_energy C self (PyArray m) = NULL PyExc_RuntimeError msg) /\
  (gsm_energyGradient C self m = Err msg ->
     GSM_energy_gradient C self (PyArray m) = NULL PyExc_RuntimeError msg) /\
  (gsm_sample C self (kwarg 1 num_samples) = Err msg ->
     GSM_sample C self num_samples = NULL PyExc_RuntimeError msg).
Proof.
  unfold GSM_variance, GSM_posterior, GSM_sample_posterior, GSM_loglikelihood,
    GSM_energy, GSM_energy_gradient, data_method, GSM_sample; simpl.
  repeat split; intro H; rewrite H; reflexivity.
Qed.

(** An [Exception] thrown by [setScales], [normalize] or [train] reaches
    Python as a [RuntimeError] carrying its message, and the wrapper
    keeps whatever state the member left: nothing is rolled back. *)
Theorem mutator_exceptions_become_RuntimeError (self self' : G) (m : MatrixXd)
  (max_iter : option Z) (tol : option float) (msg : string) :
  (gsm_setScales C self m = (self', Err msg) ->
     GSM_set_scales C self (PyArray m) = (self', Set_error PyExc_RuntimeError msg)) /\
  (gsm_normalize C self = (self', Err msg) ->
     GSM_normalize C self = (self', NULL PyExc_RuntimeError msg)) /\
  (gsm_train C self m (kwarg 100 max_iter) (kwarg 1e-5%float tol) = (self', Err msg) ->
     GSM_train C self (PyArray m) max_iter tol = (self', NULL PyExc_RuntimeError msg)).
Proof.
  unfold GSM_set_scales, GSM_normalize, GSM_train; simpl.
  repeat split; intro H; rewrite H; reflexivity.
Qed.

(** [GSM_train] returns [True] exactly when the C++ [train] returns true,
    [False] exactly when it returns false, keeps the state [train] leaves,
    and never returns any other object. *)
Theorem GSM_train_returns_train_flag (self : G) (m : MatrixXd) (data : PyObject)
  (max_iter : option Z) (tol : option float) :
  let r := gsm_train C self m (kwarg 100 max_iter) (kwarg 1e-5%float tol) in
  (snd (GSM_train C self (PyArray m) max_iter tol) = Return Py_True <-> snd r = Ok true) /\
  (snd (GSM_train C self (PyArray m) max_iter tol) = Return Py_False <-> snd r = Ok false) /\
  fst (GSM_train C self (PyArray m) max_iter tol) = fst r /\
  (forall o, snd (GSM_train C self data max_iter tol) = Return o ->
     o = Py_True \/ o = Py_False).
Proof.
  intro r. subst r. split; [| split; [| split]].
  - unfold GSM_train; simpl.
    destruct (gsm_train C self m _ _) as [g' [[|]|msg]]; simpl;
      split; intro H; congruence.
  - unfold GSM_train; simpl.
    destruct (gsm_train C self m _ _) as [g' [[|]|msg]]; simpl;
      split; intro H; congruence.
  - unfold GSM_train; simpl.
    destruct (gsm_train C self m _ _) as [g' [[|]|msg]]; reflexivity.
  - intros o Ho. unfold GSM_train in Ho.
    destruct (negb (PyArray_Check data)); [discriminate |].
    destruct (gsm_train C self (PyArray_ToMatrixXd data) _ _) as [g' [[|]|msg]];
      simpl in Ho; inversion Ho; auto.
Qed.


(** [GSM_normalize] and setting [scales] report success exactly when the
    C++ member returns, keep the state the member leaves, and a
    successful [normalize] returns [None]. *)
Theorem mutators_report_member_outcome (self : G) (m : MatrixXd) :
  (snd (GSM_normalize C self) = Return Py_None <->
     exists u, snd (gsm_normalize C self) = Ok u) /\
  (forall o, snd (GSM_normalize C self) = Return o -> o = Py_None) /\
  fst (GSM_normalize C self) = fst (gsm_normalize C self) /\
  (snd (GSM_set_scales C self (PyArray m)) = Set_ok <->
     exists u, snd (gsm_setScales C self m) = Ok u) /\
  fst (GSM_set_scales C self (PyArray m)) = fst (gsm_setScales C self m).
Proof.
  unfold GSM_normalize, GSM_set_scales; simpl.
  destruct (gsm_normalize C self) as [g1 [u1|msg1]];
  destruct (gsm_setScales C self m) as [g2 [u2|msg2]]; simpl;
  repeat split; intros; try congruence;
  repeat match goal with
         | H : exists _, _ |- _ => destruct H
         | H : Return _ = Return _ |- _ => inversion H; clear H
         end; eauto; congruence.
Qed.

Lemma data_method_returns (member : G -> MatrixXd -> Result MatrixXd)
  (self : G) (data o : PyObject) :
  data_method member self data = Return o ->
  exists r, o = PyArray r /\ PyArray_Check data = true /\
            member self (PyArray_ToMatrixXd data) = Ok r.
Proof.
  intro H. unfold data_method in H.
  destruct (PyArray_Check data); simpl in H; [| discriminate].
  destruct (member self (PyArray_ToMatrixXd data)) as [r|msg]; [| discriminate].
  inversion H; subst. eauto.
Qed.

(** A data wrapper or [GSM_sample] that returns an object returns a NumPy
    array: the C++ member's result on the array passed in (on
    [num_samples], or [1] when it is left out). *)
Theorem data_wrappers_return_member_result (self : G) (data : PyObject)
  (num_samples : option Z) (o : PyObject) :
  (GSM_posterior C self data = Return o ->
     exists r, o = PyArray r /\ PyArray_Check data = true /\
               gsm_posterior C self (PyArray_ToMatrixXd data) = Ok r) /\
  (GSM_sample_posterior C self data = Return o ->
     exists r, o = PyArray r /\ PyArray_Check data = true /\
               gsm_samplePosterior C self (PyArray_ToMatrixXd data) = Ok r) /\
  (GSM_loglikelihood C self data = Return o ->
     exists r, o = PyArray r /\ PyArray_Check data = true /\
               gsm_logLikelihood C self (PyArray_ToMatrixXd data) = Ok r) /\
  (GSM_energy C self data = Return o ->
     exists r, o = PyArray r /\ PyArray_Check data = true /\
               gsm_energy C self (PyArray_ToMatrixXd data) = Ok r) /\
  (GSM_energy_gradient C self data = Return o ->
     exists r, o = PyArray r /\ PyArray_Check data = true /\
               gsm_energyGradient C self (PyArray_ToMatrixXd data) = Ok r) /\
  (GSM_sample C self num_samples = Return o ->
     exists r, o = PyArray r /\ gsm_sample C self (kwarg 1 num_samples) = Ok r).
Proof.
  repeat split; try apply data_method_returns.
  intro H. unfold GSM_sample in H.
  destruct (gsm_sample C self (kwarg 1 num_samples)) as [r|msg]; [| discriminate].
  inversion H; subst. eauto.
Qed.

(** Left-out arguments: [GSM_train] uses [max_iter = 100] and [tol = 1e-5],
    [GSM_sample] draws one sample, and a new object initialised with only
    [dim] holds [GSM(dim, 10)].  The Python default [tol] is not the
    [1e-8] of [Parameters::GSM.tol], while [max_iter] agrees with
    [Parameters::GSM.maxIter]. *)
Theorem wrapper_defaults (self : G) (data : PyObject) (dim : Z) :
  GSM_train C self data None None = GSM_train C self data (Some 100) (Some 1e-5%float) /\
  GSM_sample C self None = GSM_sample C self (Some 1) /\
  GSM_init C GSM_new dim None = (Some (new_GSM C dim 10), 0) /\
  Config.GSMConf.maxIter (Config.GSM Config.Parameters_default) = 100 /\
  PrimFloat.eqb (Config.GSMConf.tol (Config.GSM Config.Parameters_default)) 1e-5%float = false.
Proof. repeat split; vm_compute; reflexivity. Qed.

End Class.

End PyGSMFacts.

(* ================================================================== *)
(** * More about the ISA accessors of isa.h *)

Module ISAFacts.

(** Setting the basis the model already has changes nothing, a second
    [setBasis] overrides the first, and [setBasis] leaves [complete()] and
    [numSubspaces()] as they were. *)
Theorem setBasis_round_trip (m : ISA) (A B : MatrixXd) :
  setBasis m (basis m) = m /\
  setBasis (setBasis m A) B = setBasis m B /\
  complete (setBasis m A) = complete m /\
  numSubspaces (setBasis m A) = numSubspaces m.
Proof. destruct m; repeat split. Qed.

(** On every model that is not complete, [numHiddens()] misreports the
    hidden count: it returns [numVisibles()], which differs from the
    stored [mNumHiddens]. *)
Theorem numHiddens_wrong_unless_complete (m : ISA) :
  complete m = false ->
  numHiddens m = numVisibles m /\ numHiddens m <> mNumHiddens m.
Proof.
  unfold complete, numHiddens, numVisibles. intro H.
  split; [reflexivity |]. intro E. rewrite E, Z.eqb_refl in H. discriminate.
Qed.

End ISAFacts.

(* ================================================================== *)
(** * The wrapper and accessor theorems at concrete inputs *)

Module MoreWitnesses.

Import PyGSM.

Lemma data_wrappers_reject_non_arrays_witness :
  PyArray_Check Py_None = false /\
  GSM_posterior throwing_gsm 0 Py_None = NULL PyExc_TypeError data_type_message /\
  GSM_train throwing_gsm 0 Py_None None None = (0, NULL PyExc_TypeError data_type_message).
Proof.
  assert (H : PyArray_Check Py_None = false) by reflexivity.
  destruct (PyGSMFacts.data_wrappers_reject_non_arrays throwing_gsm 0 Py_None None None H)
    as [H1 [_ [_ [_ [_ H6]]]]].
  split; [exact H | split; [exact H1 | exact H6]].
Defined.

Lemma set_scales_rejects_non_arrays_witness :
  PyArray_Check PyOther = false /\
  GSM_set_scales throwing_gsm 0 PyOther = (0, Set_error PyExc_TypeError scales_type_message).
Proof.
  assert (H : PyArray_Check PyOther = false) by reflexivity.
  split; [exact H | apply (PyGSMFacts.set_scales_rejects_non_arrays throwing_gsm 0 PyOther H)].
Defined.

Lemma query_exceptions_become_RuntimeError_witness :
  GSM_variance throwing_gsm 0 = NULL PyExc_RuntimeError "Variance undefined." /\
  GSM_posterior throwing_gsm 0 (PyArray []) =
    NULL PyExc_RuntimeError "Data has wrong dimensionality." /\
  GSM_sample throwing_gsm 0 None = NULL PyExc_RuntimeError "Invalid number of samples.".
Proof.
  destruct (PyGSMFacts.query_exceptions_become_RuntimeError throwing_gsm 0 [] None
              "Variance undefined.") as [Hv _].
  destruct (PyGSMFacts.query_exceptions_become_RuntimeError throwing_gsm 0 [] None
              "Data has wrong dimensionality.") as [_ [Hp _]].
  destruct (PyGSMFacts.query_exceptions_become_RuntimeError throwing_gsm 0 [] None
              "Invalid number of samples.") as [_ [_ [_ [_ [_ [_ Hs]]]]]].
  split; [apply Hv; reflexivity | split; [apply Hp; reflexivity | apply Hs; reflexivity]].
Defined.

Lemma mutator_exceptions_become_RuntimeError_witness :
  GSM_set_scales throwing_gsm 0 (PyArray []) =
    (1, Set_error PyExc_RuntimeError "Wrong number of scales.") /\
  GSM_normalize throwing_gsm 0 = (1, NULL PyExc_RuntimeError "Variance undefined.") /\
  GSM_train throwing_gsm 0 (PyArray []) None None =
    (1, NULL PyExc_RuntimeError "Data has wrong dimensionality.").
Proof.
  destruct (PyGSMFacts.mutator_exceptions_become_RuntimeError throwing_gsm 0 1 [] None None
              "Wrong number of scales.") as [Hs _].
  destruct (PyGSMFacts.mutator_exceptions_become_RuntimeError throwing_gsm 0 1 [] None None
              "Variance undefined.") as [_ [Hn _]].
  destruct (PyGSMFacts.mutator_exceptions_become_RuntimeError throwing_gsm 0 1 [] None None
              "Data has wrong dimensionality.") as [_ [_ Ht]].
  split; [apply Hs; reflexivity | split; [apply Hn; reflexivity | apply Ht; reflexivity]].
Defined.

Lemma numHiddens_wrong_unless_complete_witness :
  complete isa_2_4 = false /\
  numHiddens isa_2_4 = numVisibles isa_2_4 /\ numHiddens isa_2_4 <> mNumHiddens isa_2_4.
Proof.
  assert (H : complete isa_2_4 = false) by reflexivity.
  split; [exact H | apply (ISAFacts.numHiddens_wrong_unless_complete isa_2_4 H)].
Defined.

Lemma data_wrappers_return_member_result_witness :
  GSM_posterior returning_gsm 0 (PyArray [[1%R]]) = Return (PyArray [[1%R]]) /\
  gsm_posterior returning_gsm 0 [[1%R]] = Ok [[1%R]] /\
  GSM_sample returning_gsm 0 None = Return (PyArray [[0%R]]) /\
  gsm_sample returning_gsm 0 1 = Ok [[0%R]].
Proof.
  destruct (PyGSMFacts.data_wrappers_return_member_result returning_gsm 0
              (PyArray [[1%R]]) None (PyArray [[1%R]])) as [Hp _].
  destruct (PyGSMFacts.data_wrappers_return_member_result returning_gsm 0
              (PyArray [[1%R]]) None (PyArray [[0%R]])) as [_ [_ [_ [_ [_ Hs]]]]].
  assert (E1 : GSM_posterior returning_gsm 0 (PyArray [[1%R]]) = Return (PyArray [[1%R]]))
    by reflexivity.
  assert (E2 : GSM_sample returning_gsm 0 None = Return (PyArray [[0%R]])) by reflexivity.
  destruct (Hp E1) as [r1 [Hr1 [_ Hm1]]]. injection Hr1 as <-.
  destruct (Hs E2) as [r2 [Hr2 Hm2]]. injection Hr2 as <-.
  split; [exact E1 | split; [exact Hm1 | split; [exact E2 | exact Hm2]]].
Defined.

Lemma mutators_report_member_outcome_witness :
  GSM_normalize returning_gsm 5 = (5, Return Py_None) /\
  GSM_set_scales returning_gsm 5 (PyArray []) = (5, Set_ok).
Proof.
  destruct (PyGSMFacts.mutators_report_member_outcome returning_gsm 5 [])
    as [[_ Hn] [_ [Hfn [[_ Hs] Hfs]]]].
  assert (N : snd (GSM_normalize returning_gsm 5) = Return Py_None) by (apply Hn; exists tt; reflexivity).
  assert (S : snd (GSM_set_scales returning_gsm 5 (PyArray [])) = Set_ok) by (apply Hs; exists tt; reflexivity).
  split.
  - rewrite (surjective_pairing (GSM_normalize returning_gsm 5)), N, Hfn. reflexivity.
  - rewrite (surjective_pairing (GSM_set_scales returning_gsm 5 (PyArray []))), S, Hfs.
    reflexivity.
Defined.

Lemma GSM_train_returns_train_flag_witness :
  GSM_train returning_gsm 0 (PyArray [[1%R]]) None None = (1, Return Py_True).
Proof.
  destruct (PyGSMFacts.GSM_train_returns_train_flag returning_gsm 0 [[1%R]]
              (PyArray [[1%R]]) None None) as [[_ Ht] [_ [Hf _]]].
  assert (T : snd (GSM_train returning_gsm 0 (PyArray [[1%R]]) None None) = Return Py_True)
    by (apply Ht; reflexivity).
  rewrite (surjective_pairing (GSM_train returning_gsm 0 (PyArray [[1%R]]) None None)), T, Hf.
  reflexivity.
Defined.

End MoreWitnesses.
